(** * nerfstudio.process_data.process_data_utils

    A shallow embedding of the helper utilities that turn raw captures
    (videos, photo sets) into the nerfstudio working layout, together with
    the properties stated about them.

    Conventions of the embedding:
    - Python [str] values are [string]s; Python [int]s are [Z], or [nat]
      where the value is a count, an index or an image dimension;
    - Python [float] arguments (crop fractions, the mask radius) are finite
      numbers and are represented by the rationals [Q]; comparisons are the
      exact ones, products are taken without binary64 rounding;
    - a function that can call [sys.exit], raise, log or touch the file
      system is a computation in the monad [M] below: it threads a [State]
      (the trace of external calls and the store of mutable lists) and
      ends in an [outcome];
    - everything the module delegates to other libraries or to the operating
      system (pathlib, shutil, rawpy, imageio, ffmpeg, ffprobe, cv2, random)
      is read from a [PathLib] and a [World] of oracles. *)

From Stdlib Require Import ZArith QArith Qround String Ascii List Lia Psatz.
From Stdlib Require Import DecimalString.
From Stdlib Require Import DecimalNat.
From stdpp Require Import base tactics option list sorting strings.

Import ListNotations.
Local Open Scope string_scope.
Local Open Scope list_scope.
Local Open Scope Z_scope.

(** ** Python primitives *)

(** [x in (a, b, ...)] for string operands. *)
Definition str_in (x : string) (xs : list string) : bool :=
  existsb (String.eqb x) xs.

(** The double quote character, as a one-character string. *)
Definition dquote : string := String (ascii_of_nat 34) EmptyString.

(** [str(n)] and [f"{n}"] for integers. *)
Definition str_of_nat (n : nat) : string :=
  NilZero.string_of_uint (Nat.to_uint n).

Definition str_of_Z (z : Z) : string :=
  NilZero.string_of_int (Z.to_int z).

(** [s.zfill(width)] for a string of digits. *)
Definition zfill (width : nat) (s : string) : string :=
  String.concat "" (repeat "0" (width - String.length s)%nat) +:+ s.

(** [f"{n:05d}"] for a non-negative integer. *)
Definition fmt_05d (n : nat) : string := zfill 5 (str_of_nat n).

(** [c.lower()] on one character, ASCII letters only. *)
Definition ascii_lower (c : ascii) : ascii :=
  let n := nat_of_ascii c in
  if (65 <=? n)%nat && (n <=? 90)%nat then ascii_of_nat (n + 32) else c.

(** [s.lower()]. *)
Fixpoint str_lower (s : string) : string :=
  match s with
  | EmptyString => EmptyString
  | String c s' => String (ascii_lower c) (str_lower s')
  end.

(** [sep.join(parts)]. *)
Definition str_join (sep : string) (parts : list string) : string :=
  String.concat sep parts.

(** [range(n)] and [range(1, n + 1)] for a count [n]. *)
Definition py_range (n : nat) : list nat := seq 0 n.
Definition py_range1 (n : nat) : list nat := seq 1 n.

(** [int(x)] for a finite float: truncation toward zero. *)
Definition py_int (x : Q) : Z := Z.quot (Qnum x) (Zpos (Qden x)).

(** [math.ceil(a / b)] for integers, [b] positive. *)
Definition ceil_div (a b : Z) : Z := - ((- a) / b).

(** A decimal digit character. *)
Definition is_digit (c : ascii) : bool :=
  let n := nat_of_ascii c in (48 <=? n)%nat && (n <=? 57)%nat.

(** The leading digits of a string, and the rest. *)
Fixpoint span_digits (s : string) : string * string :=
  match s with
  | String c s' =>
      if is_digit c then let (d, r) := span_digits s' in (String c d, r)
      else (EmptyString, s)
  | EmptyString => (EmptyString, EmptyString)
  end.

(** [re.search(r"\d+", s)]: the first maximal run of digits, if any. *)
Fixpoint re_search_digits (s : string) : option string :=
  match s with
  | EmptyString => None
  | String c s' =>
      if is_digit c then Some (fst (span_digits s)) else re_search_digits s'
  end.

(** [int(digits)] for a string of digits. *)
Definition int_of_digits (digits : string) : nat :=
  fold_left
    (fun acc c => (10 * acc + (nat_of_ascii c - 48))%nat)
    (list_ascii_of_string digits) 0%nat.

(** Python slice bounds [start:stop] on an axis of length [n], negative
    indices counted from the end, both ends clipped to the axis. *)
Definition slice_index (n : nat) (i : Z) : nat :=
  if i <? 0 then Z.to_nat (Z.max 0 (i + Z.of_nat n))
  else Nat.min (Z.to_nat i) n.

Definition in_slice (n : nat) (start stop : Z) (i : nat) : bool :=
  (slice_index n start <=? i)%nat && (i <? slice_index n stop)%nat.

(** ** Matcher combination resolver *)

(** The result is a Python 3-tuple whose components are each either a
    string or [None]. *)
Definition combination : Type := option string * option string * option string.

Definition null_triple : combination := (None, None, None).

(** The literal sets of the signature. *)
Definition sfm_tools : list string := ["any"; "colmap"; "hloc"].

Definition feature_types : list string :=
  ["any"; "sift"; "superpoint"; "superpoint_aachen"; "superpoint_max";
   "superpoint_inloc"; "r2d2"; "d2net-ss"; "sosnet"; "disk"].

Definition matcher_types : list string :=
  ["any"; "NN"; "superglue"; "superglue-fast"; "NN-superpoint"; "NN-ratio";
   "NN-mutual"; "adalam"; "disk+lightglue"; "superpoint+lightglue"].

(** The literal sets of the return annotation. *)
Definition result_tools : list string := ["colmap"; "hloc"].

Definition result_feature_types : list string :=
  ["sift"; "superpoint_aachen"; "superpoint_max"; "superpoint_inloc";
   "r2d2"; "d2net-ss"; "sosnet"; "disk"].

Definition result_matcher_types : list string :=
  ["NN"; "superglue"; "superglue-fast"; "NN-superpoint"; "NN-ratio";
   "NN-mutual"; "adalam"; "disk+lightglue"; "superpoint+lightglue"].

Definition find_tool_feature_matcher_combination
    (sfm_tool feature_type matcher_type : string) : combination :=
  let sfm_tool :=
    if String.eqb sfm_tool "any" then
      if str_in feature_type ["any"; "sift"] && str_in matcher_type ["any"; "NN"]
      then "colmap"
      else "hloc"
    else sfm_tool in
  if String.eqb sfm_tool "colmap" then
    if negb (str_in feature_type ["any"; "sift"])
       || negb (str_in matcher_type ["any"; "NN"])
    then (None, None, None)
    else (Some "colmap", Some "sift", Some "NN")
  else if String.eqb sfm_tool "hloc" then
    let feature_type :=
      if str_in feature_type ["any"; "superpoint"]
      then "superpoint_aachen" else feature_type in
    let matcher_type :=
      if String.eqb matcher_type "any" then "superpoint+lightglue"
      else if String.eqb matcher_type "NN" then "NN-mutual"
      else matcher_type in
    (Some sfm_tool, Some feature_type, Some matcher_type)
  else (None, None, None).

(** The resolution rules as the specification words them. *)

Definition colmap_compatible (feature_type matcher_type : string) : bool :=
  str_in feature_type ["any"; "sift"] && str_in matcher_type ["any"; "NN"].

Definition hloc_feature (feature_type : string) : string :=
  if String.eqb feature_type "any" || String.eqb feature_type "superpoint"
  then "superpoint_aachen" else feature_type.

Definition hloc_matcher (matcher_type : string) : string :=
  if String.eqb matcher_type "any" then "superpoint+lightglue"
  else if String.eqb matcher_type "NN" then "NN-mutual"
  else matcher_type.

Definition colmap_path (feature_type matcher_type : string) : combination :=
  if colmap_compatible feature_type matcher_type
  then (Some "colmap", Some "sift", Some "NN")
  else null_triple.

Definition hloc_path (feature_type matcher_type : string) : combination :=
  (Some "hloc", Some (hloc_feature feature_type), Some (hloc_matcher matcher_type)).

(** A triple is fully concrete when its three components are strings of
    the result literal sets (in particular none is the wildcard). *)
Definition fully_concrete (c : combination) : Prop :=
  exists t f m,
    c = (Some t, Some f, Some m)
    /\ In t result_tools /\ In f result_feature_types /\ In m result_matcher_types.

(** ** Paths, external calls and the effect monad *)

(** The part of [pathlib.Path] the module uses. The flavour of the paths
    (POSIX or Windows) belongs to the platform, so it is an interface. *)
Class PathLib : Type := {
  Path : Type;
  path_eq_dec : EqDecision Path;
  (** [Path(s)] *)
  path_of_str : string -> Path;
  (** [str(p)] *)
  path_str : Path -> string;
  (** [p / name] *)
  path_join : Path -> string -> Path;
  (** [p.suffix] *)
  path_suffix : Path -> string;
  (** [p.parent] *)
  path_parent : Path -> Path;
  (** [sorted(paths)] *)
  path_sorted : list Path -> list Path
}.

#[global] Existing Instance path_eq_dec.

(** A mask is a 2-D [uint8] array, stored by rows. *)
Abbreviation mask := (list (list Z)).

(** Exceptions the module can run into. [OSError] stands for any failure of
    an external call other than [shutil.SameFileError]. *)
Inductive exn : Type :=
| IndexError
| ZeroDivisionError
| ValueError
| AssertionError
| SameFileError
| OSError.

(** How a call ends: it returns a value, an exception propagates out of it,
    or [sys.exit(code)] terminates the process. *)
Inductive outcome (A : Type) : Type :=
| Returned (a : A)
| Raised (e : exn)
| Exited (code : Z).

Arguments Returned {A} a.
Arguments Raised {A} e.
Arguments Exited {A} code.

Section Effects.
Context {PL : PathLib}.

(** The calls that leave the module, in the order they are made.

    Modelled from the spec: [CONSOLE] and [status] come from
    [nerfstudio.utils.rich_utils], which is not among the sources. A message
    printed or logged is recorded as it is passed; [status] is a progress
    display around a block and has no part in the control flow, so it leaves
    no event. *)
Inductive Event : Type :=
| Rmtree (dir : string)
  (** [shutil.rmtree(dir, ignore_errors=True)]; [dir] is a path or a string,
      recorded by its string *)
| Mkdir (dir : Path)
  (** [dir.mkdir(parents=True, exist_ok=True)] *)
| ShutilCopy (src dst : Path)
  (** [shutil.copy(src, dst)] *)
| RawRead (src : string)
  (** [rawpy.imread(src)] and [raw.postprocess()] *)
| ImSave (dst : Path) (rgb_of : string)
  (** [imageio.imsave(dst, rgb)], [rgb] decoded from [rgb_of] *)
| RunCommand (cmd : string)
  (** [run_command(cmd)] *)
| ConsolePrint (objects : list string)
  (** [CONSOLE.print] of the given objects *)
| ConsoleLog (msg : string)
  (** [CONSOLE.log(msg)] *).

(** The trace of external calls and the store of mutable Python lists of
    paths; a list object is named by its index in the store. *)
Record State : Type := mkState {
  trace : list Event;
  store : list (list Path)
}.

(** What the environment answers. Answers may depend on the calls made so
    far. *)
Record World : Type := mkWorld {
  (** [p.is_dir()] *)
  os_is_dir : list Event -> Path -> bool;
  (** [p.exists()] *)
  os_exists : list Event -> Path -> bool;
  (** [p.glob(pattern)] *)
  os_glob : list Event -> Path -> string -> list Path;
  (** whether an external call fails, and with which exception *)
  call_fails : list Event -> Event -> option exn;
  (** the captured output of a command *)
  command_stdout : list Event -> string -> option string;
  (** [random.seed(s); random.sample(range(n), k)] *)
  random_sample : Z -> nat -> nat -> list nat;
  (** [f"{x}"] for a float *)
  float_repr : Q -> string;
  (** [cv2.circle(img, center, radius, color, thickness)] *)
  cv2_circle : mask -> Z * Z -> Z -> Z -> Z -> mask
}.

Definition M (A : Type) : Type := State -> outcome A * State.

Definition ret {A : Type} (a : A) : M A := fun st => (Returned a, st).

Definition bind {A B : Type} (c : M A) (k : A -> M B) : M B :=
  fun st =>
    match c st with
    | (Returned a, st') => k a st'
    | (Raised e, st') => (Raised e, st')
    | (Exited code, st') => (Exited code, st')
    end.

Definition raise {A : Type} (e : exn) : M A := fun st => (Raised e, st).

(** [sys.exit(code)] *)
Definition sys_exit {A : Type} (code : Z) : M A := fun st => (Exited code, st).

Definition record_call (e : Event) (st : State) : State :=
  mkState (trace st ++ [e]) (store st).

(** A call that cannot fail. *)
Definition emit (e : Event) : M unit :=
  fun st => (Returned tt, record_call e st).

Context (w : World).

(** A call that the environment may fail. *)
Definition call (e : Event) : M unit :=
  fun st =>
    match call_fails w (trace st) e with
    | Some x => (Raised x, record_call e st)
    | None => (Returned tt, record_call e st)
    end.

(** A read-only question to the environment. *)
Definition ask {A : Type} (q : list Event -> A) : M A :=
  fun st => (Returned (q (trace st)), st).

(** [try: c  except shutil.SameFileError: pass] *)
Definition except_same_file (c : M unit) : M unit :=
  fun st =>
    match c st with
    | (Raised SameFileError, st') => (Returned tt, st')
    | r => r
    end.

(** [for x in xs: body(x)] over an immutable sequence. *)
Fixpoint for_each {A : Type} (xs : list A) (body : A -> M unit) : M unit :=
  match xs with
  | [] => ret tt
  | x :: xs' => bind (body x) (fun _ => for_each xs' body)
  end.

(** Mutable lists. *)

Definition list_new (l : list Path) : M nat :=
  fun st => (Returned (length (store st)), mkState (trace st) (store st ++ [l])).

Definition list_contents (loc : nat) : M (list Path) :=
  fun st => (Returned (default [] (store st !! loc)), st).

(** [l[idx]] *)
Definition list_getitem (loc idx : nat) : M Path :=
  fun st =>
    match default [] (store st !! loc) !! idx with
    | Some p => (Returned p, st)
    | None => (Raised IndexError, st)
    end.

(** [l[idx] = p] *)
Definition list_setitem (loc idx : nat) (p : Path) : M unit :=
  fun st =>
    let l := default [] (store st !! loc) in
    if (idx <? length l)%nat
    then (Returned tt, mkState (trace st) (<[loc := <[idx := p]> l]> (store st)))
    else (Raised IndexError, st).

End Effects.

Declare Scope py_scope.
Delimit Scope py_scope with py.
Notation "'let!' x ':=' c 'in' k" := (bind c (fun x => k))
  (at level 10, x name, c at level 100, k at level 200) : py_scope.
Notation "'let!' ' p ':=' c 'in' k" := (bind c (fun x => match x with p => k end))
  (at level 10, p pattern, c at level 100, k at level 200) : py_scope.
Notation "c '>>' k" := (bind c (fun _ => k))
  (at level 100, k at level 200, right associativity) : py_scope.

(** ** Mask generation *)

Definition Qlt_bool (x y : Q) : bool := negb (Qle_bool y x).

(** A crop specification [(top, bottom, left, right)]. *)
Definition crop_spec : Type := (Q * Q * Q * Q)%type.

Definition crop_list (crop_factor : crop_spec) : list Q :=
  let '(top, bottom, left_, right_) := crop_factor in [top; bottom; left_; right_].

(** [np.zeros((height, width), dtype=np.uint8)] *)
Definition np_zeros (height width : nat) : mask :=
  replicate height (replicate width 0).

(** [m[r0:r1, c0:c1] = v] *)
Definition np_assign_slice2 (m : mask) (r0 r1 c0 c1 : Z) (v : Z) : mask :=
  imap (fun i row =>
          if in_slice (length m) r0 r1 i
          then imap (fun j x => if in_slice (length row) c0 c1 j then v else x) row
          else row) m.

(** [a * b] on [uint8] arrays of one shape. *)
Definition np_mul (a b : mask) : mask :=
  zip_with (zip_with (fun x y => (x * y) mod 256)) a b.



(** [int(percent_radius * np.sqrt(width**2 + height**2) / 2.0)]: the integer
    part of the real number [percent_radius * sqrt(width^2 + height^2) / 2]. *)
Definition circle_radius (percent_radius : Q) (height width : nat) : Z :=
  let n := Z.of_nat width ^ 2 + Z.of_nat height ^ 2 in
  let p := Qnum percent_radius in
  let q := Zpos (Qden percent_radius) in
  Z.sgn p * (Z.sqrt (p * p * n) / (2 * q)).

Section Masks.
Context {PL : PathLib} (w : World).
Local Open Scope py_scope.

Definition generate_circle_mask (height width : nat) (percent_radius : Q)
  : M (option mask) :=
  if Qle_bool percent_radius 0 then
    emit (ConsoleLog "[bold red]:skull: The radius of the circle mask must be positive.") >>
    sys_exit 1
  else if Qle_bool 1 percent_radius then
    ret None
  else
    let mask := np_zeros height width in
    let center := (Z.of_nat width / 2, Z.of_nat height / 2) in
    let radius := circle_radius percent_radius height width in
    ret (Some (cv2_circle w mask center radius 1 (-1))).

Definition generate_crop_mask (height width : nat) (crop_factor : crop_spec)
  : M (option mask) :=
  if forallb (fun x => Qeq_bool x 0) (crop_list crop_factor) then
    ret None
  else if existsb (fun x => Qlt_bool x 0) (crop_list crop_factor)
          || existsb (fun x => Qlt_bool 1 x) (crop_list crop_factor) then
    emit (ConsoleLog "[bold red]Invalid crop percentage, must be between 0 and 1.") >>
    sys_exit 1
  else
    let '(top, bottom, left_, right_) := crop_factor in
    let mask := np_zeros height width in
    let top := py_int (top * inject_Z (Z.of_nat height)) in
    let bottom := py_int (bottom * inject_Z (Z.of_nat height)) in
    let left_ := py_int (left_ * inject_Z (Z.of_nat width)) in
    let right_ := py_int (right_ * inject_Z (Z.of_nat width)) in
    ret (Some (np_assign_slice2 mask
                 top (Z.of_nat height - bottom) left_ (Z.of_nat width - right_) 1)).

Definition generate_mask (height width : nat) (crop_factor : crop_spec)
    (percent_radius : Q) : M (option mask) :=
  let! crop_mask := generate_crop_mask height width crop_factor in
  let! circle_mask := generate_circle_mask height width percent_radius in
  match crop_mask, circle_mask with
  | None, _ => ret circle_mask
  | Some _, None => ret crop_mask
  | Some a, Some b => ret (Some (np_mul a b))
  end.

End Masks.

(** ** Frame extraction and image copying *)

(** Lowercase suffixes to treat as raw image. *)
Definition ALLOWED_RAW_EXTS : list string := [".cr2"].

(** Suffix to use for converted images from raw. *)
Definition RAW_CONVERTED_SUFFIX : string := ".jpg".

(** The truth value of an [Optional[int]]: [None] and [0] are false. *)
Definition truthy (x : option Z) : bool :=
  match x with
  | Some v => negb (v =? 0)
  | None => false
  end.

Section Ingest.
Context {PL : PathLib} (w : World).
Local Open Scope py_scope.

(** [list_images(data)] with [recursive=True]. *)
Definition list_images (data : Path) : M (list Path) :=
  let allowed_exts :=
    ([".jpg"; ".jpeg"; ".png"; ".tif"; ".tiff"] ++ ALLOWED_RAW_EXTS)%list in
  let glob_str := "**/[!.]*" in
  let! found := ask (fun tr => os_glob w tr data glob_str) in
  ret (path_sorted
         (List.filter (fun p => str_in (str_lower (path_suffix p)) allowed_exts) found)).

(** Modelled from the spec: [nerfstudio.utils.scripts.run_command] is not
    among the sources. It runs the command as an external process and hands
    back its output; a failure of the process is not caught and propagates
    to the caller. *)
Definition run_command (cmd : string) (verbose : bool) : M (option string) :=
  call w (RunCommand cmd) >>
  ask (fun tr => command_stdout w tr cmd).

(** The packet-counting command of [get_num_frames_in_video]; the line
    continuation inside the literal keeps the indentation of its second
    line. *)
Definition ffprobe_cmd (video : Path) : string :=
  "ffprobe -v error -select_streams v:0 -count_packets "
  +:+ "            -show_entries stream=nb_read_packets -of csv=p=0 "
  +:+ dquote +:+ path_str video +:+ dquote.

Definition get_num_frames_in_video (video : Path) : M nat :=
  let cmd := ffprobe_cmd video in
  let! output := run_command cmd false in
  match output with
  | None => raise AssertionError
  | Some out =>
      match re_search_digits out with
      | None => raise AssertionError
      | Some number_match => ret (int_of_digits number_match)
      end
  end.

(** [image_dir if i == 0 else f"{image_dir}_{2**i}"] *)
Definition dir_to_remove (image_dir : Path) (i : nat) : string :=
  if (i =? 0)%nat then path_str image_dir
  else path_str image_dir +:+ "_" +:+ str_of_nat (2 ^ i).

(** The removal of the output directory and of its downscaled versions. *)
Definition remove_image_dirs (image_dir : Path) (num_downscales : nat) : M unit :=
  for_each (py_range (num_downscales + 1))
    (fun i => emit (Rmtree (dir_to_remove image_dir i))).

(** [crop_factor != (0.0, 0.0, 0.0, 0.0)] *)
Definition crop_requested (crop_factor : crop_spec) : bool :=
  negb (forallb (fun x => Qeq_bool x 0) (crop_list crop_factor)).

(** [f"crop=w=iw*{width}:h=ih*{height}:x=iw*{start_x}:y=ih*{start_y}"], the
    part the two crop commands share. *)
Definition crop_window (crop_factor : crop_spec) : string :=
  let '(top, bottom, left_, right_) := crop_factor in
  let height := (1 - top - bottom)%Q in
  let width := (1 - left_ - right_)%Q in
  let start_x := left_ in
  let start_y := top in
  "crop=w=iw*" +:+ float_repr w width +:+ ":h=ih*" +:+ float_repr w height
  +:+ ":x=iw*" +:+ float_repr w start_x +:+ ":y=ih*" +:+ float_repr w start_y.

(** [f"[t{i}]scale=iw/{2**i}:ih/{2**i}{nn_flag}[out{i}]"] *)
Definition downscale_chains (nn_flag : string) (num_downscales : nat) : list string :=
  map (fun i =>
         "[t" +:+ str_of_nat i +:+ "]scale=iw/" +:+ str_of_nat (2 ^ i)
         +:+ ":ih/" +:+ str_of_nat (2 ^ i) +:+ nn_flag
         +:+ "[out" +:+ str_of_nat i +:+ "]")
      (py_range (num_downscales + 1)).

(** [Path(str(image_dir) + (f"_{2**i}" if i > 0 else ""))] *)
Definition downscale_dir (image_dir : Path) (i : nat) : Path :=
  path_of_str (path_str image_dir
               +:+ (if (0 <? i)%nat then "_" +:+ str_of_nat (2 ^ i) else "")).

Definition downscale_dirs (image_dir : Path) (num_downscales : nat) : list Path :=
  map (downscale_dir image_dir) (py_range (num_downscales + 1)).

Definition downscale_chain (nn_flag : string) (num_downscales : nat) : string :=
  "split=" +:+ str_of_nat (num_downscales + 1)
  +:+ str_join "" (map (fun i => "[t" +:+ str_of_nat i +:+ "]")
                       (py_range (num_downscales + 1)))
  +:+ ";"
  +:+ str_join ";" (downscale_chains nn_flag num_downscales).

(** The [-filter_complex] argument and the output mappings of the video
    command. *)
Definition video_downscale_cmd (image_dir : Path) (num_downscales : nat)
    (image_prefix select_cmd crop_cmd : string) : string :=
  " -filter_complex " +:+ dquote
  +:+ select_cmd +:+ crop_cmd +:+ downscale_chain "" num_downscales +:+ dquote
  +:+ str_join ""
        (map (fun i =>
                " -map " +:+ dquote +:+ "[out" +:+ str_of_nat i +:+ "]" +:+ dquote
                +:+ " " +:+ dquote
                +:+ path_str (path_join (downscale_dir image_dir i)
                                        (image_prefix +:+ "%05d.png"))
                +:+ dquote)
             (py_range (num_downscales + 1))).

(** [f"select='" + "+".join(...) + "',setpts=N/TB,"] *)
Definition random_select_cmd (frame_indices : list nat) : string :=
  "select='"
  +:+ str_join "+" (map (fun idx => "eq(n\," +:+ str_of_nat idx +:+ ")") frame_indices)
  +:+ "',setpts=N/TB,".

Definition convert_video_to_images
    (video_path image_dir : Path) (num_frames_target : Z) (num_downscales : nat)
    (crop_factor : crop_spec) (verbose : bool) (image_prefix : string)
    (keep_image_dir : bool) (random_seed : option Z) : M (list string * nat) :=
  (if negb keep_image_dir then remove_image_dirs image_dir num_downscales else ret tt) >>
  call w (Mkdir image_dir) >>
  for_each (crop_list crop_factor)
    (fun i =>
       if Qlt_bool i 0 || Qlt_bool 1 i then
         emit (ConsolePrint
                 ["[bold red]Error: Invalid crop factor. All crops must be in [0,1]."]) >>
         sys_exit 1
       else ret tt) >>
  let! video_is_dir := ask (fun tr => os_is_dir w tr video_path) in
  (if video_is_dir then
     emit (ConsolePrint
             ["[bold red]Error: Video path is a directory, not a path: "
              +:+ path_str video_path]) >>
     sys_exit 1
   else ret tt) >>
  let! video_exists := ask (fun tr => os_exists w tr video_path) in
  (if negb video_exists then
     emit (ConsolePrint
             ["[bold red]Error: Video does not exist: " +:+ path_str video_path]) >>
     sys_exit 1
   else ret tt) >>
  let! num_frames := get_num_frames_in_video video_path in
  (if (num_frames =? 0)%nat then
     emit (ConsolePrint
             ["[bold red]Error: Video has no frames: " +:+ path_str video_path]) >>
     sys_exit 1
   else ret tt) >>
  emit (ConsolePrint ["Number of frames in video:"; str_of_nat num_frames]) >>
  let ffmpeg_cmd := "ffmpeg -i " +:+ dquote +:+ path_str video_path +:+ dquote in
  let crop_cmd :=
    if crop_requested crop_factor then crop_window crop_factor +:+ "," else "" in
  for_each (downscale_dirs image_dir num_downscales) (fun dir => call w (Mkdir dir)) >>
  let ffmpeg_cmd := ffmpeg_cmd +:+ " -vsync vfr" in
  (* Evenly distribute frame selection if random seed does not exist *)
  let! spacing :=
    (if num_frames_target =? 0 then raise ZeroDivisionError
     else ret (Z.of_nat num_frames / num_frames_target)) in
  let! '(ffmpeg_cmd, select_cmd) :=
    (if truthy random_seed then
       let seed := default 0 random_seed in
       if (num_frames_target <? 0) || (Z.of_nat num_frames <? num_frames_target)
       then raise ValueError
       else
         let frame_indices :=
           merge_sort Nat.le
             (random_sample w seed num_frames (Z.to_nat num_frames_target)) in
         emit (ConsolePrint
                 ["Extracting " +:+ str_of_Z num_frames_target +:+ " frames using seed "
                  +:+ str_of_Z seed +:+ " random selection."]) >>
         ret (ffmpeg_cmd, random_select_cmd frame_indices)
     else if 1 <? spacing then
       emit (ConsolePrint
               ["Extracting " +:+ str_of_Z (ceil_div (Z.of_nat num_frames) spacing)
                +:+ " frames in evenly spaced intervals"]) >>
       ret (ffmpeg_cmd, "thumbnail=" +:+ str_of_Z spacing +:+ ",setpts=N/TB,")
     else
       emit (ConsolePrint
               ["[bold red]Can't satisfy requested number of frames. Extracting all frames."]) >>
       ret (ffmpeg_cmd +:+ " -pix_fmt bgr8", "")) in
  let downscale_cmd :=
    video_downscale_cmd image_dir num_downscales image_prefix select_cmd crop_cmd in
  let ffmpeg_cmd := ffmpeg_cmd +:+ downscale_cmd in
  run_command ffmpeg_cmd verbose >>
  let! num_final_frames := ask (fun tr => length (os_glob w tr image_dir "*.png")) in
  let summary_log :=
    ["Starting with " +:+ str_of_nat num_frames +:+ " video frames";
     "We extracted " +:+ str_of_nat num_final_frames +:+ " images with prefix '"
     +:+ image_prefix +:+ "'"] in
  emit (ConsoleLog "[bold green]:tada: Done converting video to images.") >>
  ret (summary_log, num_final_frames).

End Ingest.

(** An [OrderedDict], by its items in insertion order: setting a key that is
    present replaces its value in place, a new key goes to the end. *)
Fixpoint ordered_dict_set {K V : Type} `{EqDecision K}
    (d : list (K * V)) (k : K) (v : V) : list (K * V) :=
  match d with
  | [] => [(k, v)]
  | (k', v') :: d' =>
      if decide (k' = k) then (k', v) :: d'
      else (k', v') :: ordered_dict_set d' k v
  end.

(** [OrderedDict(pairs)] *)
Definition ordered_dict {K V : Type} `{EqDecision K}
    (pairs : list (K * V)) : list (K * V) :=
  fold_left (fun d kv => ordered_dict_set d (fst kv) (snd kv)) pairs [].

Section Copy.
Context {PL : PathLib} (w : World).
Local Open Scope py_scope.

(** [image_path.suffix.lower() in ALLOWED_RAW_EXTS] *)
Definition is_raw (image_path : Path) : bool :=
  str_in (str_lower (path_suffix image_path)) ALLOWED_RAW_EXTS.

(** [image_dir / f"{image_prefix}{idx + 1:05d}{suffix}"] *)
Definition numbered_path (image_dir : Path) (image_prefix : string) (idx : nat)
    (suffix : string) : Path :=
  path_join image_dir (image_prefix +:+ fmt_05d (idx + 1) +:+ suffix).

(** The value of [copied_image_path] when the [try] statement is left: the
    RAW branch reassigns it before it calls anything. *)
Definition destination (image_dir : Path) (image_prefix : string) (idx : nat)
    (image_path : Path) : Path :=
  if is_raw image_path
  then numbered_path image_dir image_prefix idx RAW_CONVERTED_SUFFIX
  else numbered_path image_dir image_prefix idx (path_suffix image_path).

(** One turn of the copy loop, for the element at [idx] of the list object
    [image_paths]; it yields the path appended to [copied_image_paths]. *)
Definition copy_one (image_paths : nat) (image_dir : Path) (image_prefix : string)
    (verbose same_dimensions : bool) (idx : nat) : M Path :=
  let! image_path := list_getitem image_paths idx in
  (if verbose then
     let! all_paths := list_contents image_paths in
     emit (ConsoleLog ("Copying image " +:+ str_of_nat (idx + 1) +:+ " of "
                       +:+ str_of_nat (length all_paths) +:+ "..."))
   else ret tt) >>
  let copied_image_path := destination image_dir image_prefix idx image_path in
  except_same_file
    (if is_raw image_path then
       call w (RawRead (path_str image_path)) >>
       call w (ImSave copied_image_path (path_str image_path)) >>
       list_setitem image_paths idx copied_image_path
     else if same_dimensions then
       (* Fast path; just copy the file *)
       call w (ShutilCopy image_path copied_image_path)
     else
       (* Slow path; let ffmpeg perform autorotation (and clear metadata) *)
       let ffmpeg_cmd :=
         "ffmpeg -y -i " +:+ path_str image_path +:+ " -metadata:s:v:0 rotate=0 "
         +:+ path_str copied_image_path in
       (if verbose then emit (ConsoleLog ("... " +:+ ffmpeg_cmd)) else ret tt) >>
       run_command w ffmpeg_cmd verbose >>
       ret tt) >>
  ret copied_image_path.

(** [for idx, image_path in enumerate(image_paths)]: the iterator reads the
    list object anew at each turn; the body only assigns to an element, so
    there are as many turns as the list has elements when the loop starts
    ([turns]). *)
Fixpoint copy_loop (image_paths : nat) (image_dir : Path) (image_prefix : string)
    (verbose same_dimensions : bool) (turns : list Path) (idx : nat)
    (copied_image_paths : list Path) : M (list Path) :=
  match turns with
  | [] => ret copied_image_paths
  | _ :: turns' =>
      let! copied_image_path :=
        copy_one image_paths image_dir image_prefix verbose same_dimensions idx in
      copy_loop image_paths image_dir image_prefix verbose same_dimensions
        turns' (S idx) (copied_image_paths ++ [copied_image_path])%list
  end.

(** The [-filter_complex] argument and the output mappings of the image
    command. *)
Definition images_downscale_cmd (image_dir : Path) (num_downscales : nat)
    (nn_flag select_cmd crop_cmd framename suffix : string) : string :=
  " -filter_complex " +:+ dquote
  +:+ select_cmd +:+ crop_cmd +:+ downscale_chain nn_flag num_downscales +:+ dquote
  +:+ str_join ""
        (map (fun i =>
                " -map " +:+ dquote +:+ "[out" +:+ str_of_nat i +:+ "]" +:+ dquote
                +:+ " -q:v 2 " +:+ dquote
                +:+ path_str (path_join (downscale_dir image_dir i) (framename +:+ suffix))
                +:+ dquote)
             (py_range (num_downscales + 1))).

Definition copy_images_list
    (image_paths : nat) (image_dir : Path) (num_downscales : nat)
    (image_prefix : string) (crop_border_pixels : option Z) (crop_factor : crop_spec)
    (verbose keep_image_dir : bool) (upscale_factor : option Z)
    (nearest_neighbor same_dimensions : bool) : M (list Path) :=
  (* Remove original directory and its downscaled versions
     only if we provide a proper image folder path and keep_image_dir is False *)
  let! image_dir_is_dir := ask (fun tr => os_is_dir w tr image_dir) in
  let! given := list_contents image_paths in
  (if image_dir_is_dir && negb (length given =? 0)%nat && negb keep_image_dir then
     let! first := list_getitem image_paths 0 in
     (* check that output directory is not the same as input directory *)
     if bool_decide (image_dir <> path_parent first)
     then remove_image_dirs image_dir num_downscales
     else ret tt
   else ret tt) >>
  call w (Mkdir image_dir) >>
  (* Images should be 1-indexed for the rest of the pipeline. *)
  let! turns := list_contents image_paths in
  let! copied_image_paths :=
    copy_loop image_paths image_dir image_prefix verbose same_dimensions turns 0 [] in
  let nn_flag := if negb nearest_neighbor then "" else ":flags=neighbor" in
  for_each (downscale_dirs image_dir num_downscales) (fun dir => call w (Mkdir dir)) >>
  let! final_paths := list_contents image_paths in
  let num_frames := length final_paths in
  for_each (py_range1 (if same_dimensions then 1 else num_frames))
    (fun framenum =>
       let framename :=
         if same_dimensions then image_prefix +:+ "%05d"
         else image_prefix +:+ fmt_05d framenum in
       match copied_image_paths !! 0%nat with
       | None => raise IndexError
       | Some first_copied =>
           let ffmpeg_cmd :=
             "ffmpeg -y -noautorotate -i " +:+ dquote
             +:+ path_str (path_join image_dir (framename +:+ path_suffix first_copied))
             +:+ dquote +:+ " " in
           let crop_cmd :=
             match crop_border_pixels with
             | Some px =>
                 "crop=iw-" +:+ str_of_Z (px * 2) +:+ ":ih-" +:+ str_of_Z (px * 2)
                 +:+ "[cropped];[cropped]"
             | None =>
                 if crop_requested crop_factor
                 then crop_window w crop_factor +:+ "[cropped];[cropped]"
                 else ""
             end in
           let select_cmd :=
             match upscale_factor with
             | Some f =>
                 "[0:v]scale=iw*" +:+ str_of_Z f +:+ ":ih*" +:+ str_of_Z f
                 +:+ ":flags=neighbor[upscaled];[upscaled]"
             | None => "[0:v]"
             end in
           let downscale_cmd :=
             images_downscale_cmd image_dir num_downscales nn_flag select_cmd crop_cmd
               framename (path_suffix first_copied) in
           let ffmpeg_cmd := ffmpeg_cmd +:+ downscale_cmd in
           (if verbose then emit (ConsoleLog ("... " +:+ ffmpeg_cmd)) else ret tt) >>
           run_command w ffmpeg_cmd verbose >>
           ret tt
       end) >>
  (if (num_frames =? 0)%nat then
     emit (ConsoleLog "[bold red]:skull: No usable images in the data folder.")
   else
     emit (ConsoleLog ("[bold green]:tada: Done copying images with prefix '"
                       +:+ image_prefix +:+ "'."))) >>
  ret copied_image_paths.

Definition copy_images
    (data image_dir : Path) (image_prefix : string) (verbose keep_image_dir : bool)
    (crop_factor : crop_spec) (num_downscales : nat) (same_dimensions : bool)
  : M (list (Path * Path)) :=
  let! found := list_images w data in
  let! image_paths := list_new found in
  let! listed := list_contents image_paths in
  if (length listed =? 0)%nat then
    emit (ConsoleLog "[bold red]:skull: No usable images in the data folder.") >>
    sys_exit 1
  else
    let! copied_images :=
      copy_images_list image_paths image_dir num_downscales image_prefix None
        crop_factor verbose keep_image_dir None false same_dimensions in
    let! original_paths := list_contents image_paths in
    ret (ordered_dict (zip original_paths copied_images)).

End Copy.

(** ** Vocabulary of the statements *)

(** *** Crop fractions *)

Definition all_zero (crop_factor : crop_spec) : Prop :=
  Forall (fun x => x == 0)%Q (crop_list crop_factor).

Definition some_outside_unit (crop_factor : crop_spec) : Prop :=
  Exists (fun x => x < 0 \/ 1 < x)%Q (crop_list crop_factor).

Definition all_in_unit (crop_factor : crop_spec) : Prop :=
  Forall (fun x => 0 <= x /\ x <= 1)%Q (crop_list crop_factor).

(** The number of pixels a fraction of an extent truncates to:
    [int(fraction * extent)]. *)
Definition crop_px (fraction : Q) (extent : nat) : Z :=
  py_int (fraction * inject_Z (Z.of_nat extent)).



Definition crop_error : string :=
  "[bold red]Invalid crop percentage, must be between 0 and 1.".


(** *** Circle masks *)

Definition radius_error : string :=
  "[bold red]:skull: The radius of the circle mask must be positive.".

(** The pixels of the disk of the given centre [(cx, cy)] and radius. *)
Definition in_disk (center : Z * Z) (radius : Z) (y x : nat) : bool :=
  (Z.of_nat x - fst center) ^ 2 + (Z.of_nat y - snd center) ^ 2 <=? radius ^ 2.




(** *** Environments *)

(** An environment in which external calls go through; only [shutil.copy]
    may refuse, and only because source and destination are the same file. *)
Definition dependable `{PL : PathLib} (w : World) : Prop :=
  forall tr e,
    call_fails w tr e = None
    \/ (call_fails w tr e = Some SameFileError /\ exists src dst, e = ShutilCopy src dst).

(** Computations that return and only add to the trace. *)
Definition steady `{PL : PathLib} {A : Type} (c : M A) : Prop :=
  forall st, exists a events, c st = (Returned a, mkState (trace st ++ events) (store st)).

(** *** Video extraction *)

(** The removals of the output directory and of its downscaled versions. *)
Definition removals `{PL : PathLib} (image_dir : Path) (num_downscales : nat) : list Event :=
  map (fun i => Rmtree (dir_to_remove image_dir i)) (py_range (num_downscales + 1)).

Definition crop_factor_error : string :=
  "[bold red]Error: Invalid crop factor. All crops must be in [0,1].".

(** The check of one crop fraction in [convert_video_to_images]. *)
Definition crop_check `{PL : PathLib} (i : Q) : M unit :=
  if Qlt_bool i 0 || Qlt_bool 1 i then
    bind (emit (ConsolePrint [crop_factor_error])) (fun _ => sys_exit 1)
  else ret tt.

(** The inspection pass reads [num_frames] packets from the video. *)
Definition probed_frames `{PL : PathLib} (w : World) (video_path : Path)
    (num_frames : nat) : Prop :=
  forall tr, exists out digits,
    command_stdout w tr (ffprobe_cmd video_path) = Some out
    /\ re_search_digits out = Some digits
    /\ int_of_digits digits = num_frames.

(** The video path is an existing file, whatever calls were made. *)
Definition video_is_file `{PL : PathLib} (w : World) (video_path : Path) : Prop :=
  (forall tr, os_is_dir w tr video_path = false)
  /\ (forall tr, os_exists w tr video_path = true).

(** *** Image copying *)

(** The list of inputs after the copy loop: each RAW entry is replaced by
    its converted copy, the other entries are kept ([start] is the index of
    the first element). *)
Definition raw_substituted `{PL : PathLib} (image_dir : Path) (image_prefix : string)
    (start : nat) (paths : list Path) : list Path :=
  imap (fun i p =>
          if is_raw p
          then numbered_path image_dir image_prefix (start + i) RAW_CONVERTED_SUFFIX
          else p) paths.

(** The destinations of the inputs, in input order. *)
Definition destinations `{PL : PathLib} (image_dir : Path) (image_prefix : string)
    (start : nat) (paths : list Path) : list Path :=
  imap (fun i p => destination image_dir image_prefix (start + i) p) paths.

(** ** A concrete platform and environment *)

(** POSIX paths as strings, for paths in normal form and names without
    separators. *)

Definition slash : ascii := ascii_of_nat 47.
Definition dot : ascii := ascii_of_nat 46.

(** The characters of [l] before the first occurrence of [c]. *)
Fixpoint take_until (c : ascii) (l : list ascii) : list ascii :=
  match l with
  | [] => []
  | x :: l' => if Ascii.eqb x c then [] else x :: take_until c l'
  end.

(** [p.name]: the final component. *)
Definition posix_name (p : string) : list ascii :=
  rev (take_until slash (rev (list_ascii_of_string p))).

(** [p.suffix]: the name from its last dot on, when the dot is neither the
    first nor the last character of the name. *)
Definition posix_suffix (p : string) : string :=
  let name := posix_name p in
  let ext := take_until dot (rev name) in
  if (length ext <? length name)%nat
     && (0 <? length name - length ext - 1)%nat
     && (0 <? length ext)%nat
  then string_of_list_ascii (dot :: rev ext)
  else EmptyString.

(** [p.parent], for a path with a directory part. *)
Definition posix_parent (p : string) : string :=
  let chars := list_ascii_of_string p in
  let name := posix_name p in
  if (length name <? length chars)%nat
  then string_of_list_ascii (firstn (length chars - length name - 1) chars)
  else ".".

(** The order of [sorted] on paths. *)
Definition str_le (a b : string) : Prop := String.leb a b = true.

Definition str_le_dec (a b : string) : Decision (str_le a b) :=
  bool_eq_dec (String.leb a b) true.

Definition posix_paths : PathLib := {|
  Path := string;
  path_eq_dec := String.string_dec;
  path_of_str := fun s => s;
  path_str := fun p => p;
  path_join := fun p name => p +:+ "/" +:+ name;
  path_suffix := posix_suffix;
  path_parent := posix_parent;
  path_sorted := @merge_sort string str_le str_le_dec
|}.

(** A rasteriser that meets the contract of [cv2.circle] for filled
    disks. *)
Definition fill_disk (img : mask) (center : Z * Z) (radius color thickness : Z) : mask :=
  imap (fun y row => imap (fun x v => if in_disk center radius y x then color else v) row)
       img.

(** An environment: [clip.mp4] is a video of 120 frames, the directory [in]
    holds two photographs, one of them RAW; no call fails. *)
Definition sample_world : @World posix_paths :=
  @mkWorld posix_paths
    (fun _ _ => false)
    (fun _ _ => true)
    (fun _ _ pattern =>
       if String.eqb pattern "**/[!.]*"
       then ["in/b.CR2"; "in/a.png"; "in/notes.txt"]
       else [])
    (fun _ _ => None)
    (fun _ _ => Some "120")
    (fun _ n k => rev (seq 0 k))
    (fun x => str_of_Z (Qnum x) +:+ "/" +:+ str_of_Z (Zpos (Qden x)))
    fill_disk.

(** The same environment with a video that has no frames. *)
Definition empty_video_world : @World posix_paths :=
  @mkWorld posix_paths
    (os_is_dir sample_world)
    (os_exists sample_world)
    (os_glob sample_world)
    (call_fails sample_world)
    (fun _ _ => Some "0")
    (random_sample sample_world)
    (float_repr sample_world)
    (cv2_circle sample_world).

(** A string read as a path of the sample platform. *)
Definition posix (s : string) : @Path posix_paths := s.

(** A state with no call made yet and one list object, empty. *)
Definition fresh_state : @State posix_paths := mkState [] [[]].

Definition no_crop : crop_spec := (0, 0, 0, 0)%Q.

(** A crop of a quarter at the top and a half at the right. *)
Definition sample_crop : crop_spec := (1 # 4, 0, 0, 1 # 2)%Q.

(** ** Depth maps and separate downscaling *)

Definition POLYCAM_UPSCALING_TIMES : Z := 2.

Section Derived.
Context {PL : PathLib} (w : World).
Local Open Scope py_scope.

(** [copy_and_upscale_polycam_depth_maps_list]; the arguments it does not
    pass to [copy_images_list] take their defaults there. *)
Definition copy_and_upscale_polycam_depth_maps_list
    (polycam_depth_image_filenames : nat) (depth_dir : Path) (num_downscales : nat)
    (crop_border_pixels : option Z) (verbose : bool) : M (list Path) :=
  call w (Mkdir depth_dir) >>
  (* copy and upscale them to new directory *)
  let upscale_factor := 2 ^ POLYCAM_UPSCALING_TIMES in
  (if 1 <? upscale_factor then ret tt else raise AssertionError) >>
  let! copied_depth_map_paths :=
    copy_images_list w polycam_depth_image_filenames depth_dir num_downscales
      "frame_" crop_border_pixels (0, 0, 0, 0)%Q verbose false (Some upscale_factor)
      true true in
  emit (ConsoleLog "[bold green]:tada: Done upscaling depth maps.") >>
  ret copied_depth_map_paths.

(** [f.name], the final component of a path. *)
Context (path_name : Path -> string).

(** [f"{folder_name}_{downscale_factor}"] under the parent of [image_dir]. *)
Definition downscale_images_dir (image_dir : Path) (folder_name : string)
    (downscale_factor : nat) : Path :=
  path_join (path_parent image_dir) (folder_name +:+ "_" +:+ str_of_nat downscale_factor).

(** The command of [downscale_images] for one file and one factor: three
    parts joined by a space. *)
Definition downscale_images_cmd (image_dir : Path) (folder_name : string)
    (nearest_neighbor : bool) (downscale_factor : nat) (f : Path) : string :=
  let downscale_dir := downscale_images_dir image_dir folder_name downscale_factor in
  let filename := path_name f in
  let nn_flag := if negb nearest_neighbor then "" else ":flags=neighbor" in
  str_join " "
    ["ffmpeg -y -noautorotate -i " +:+ dquote
     +:+ path_str (path_join image_dir filename) +:+ dquote +:+ " ";
     "-q:v 2 -vf scale=iw/" +:+ str_of_nat downscale_factor
     +:+ ":ih/" +:+ str_of_nat downscale_factor +:+ nn_flag +:+ " ";
     dquote +:+ path_str (path_join downscale_dir filename) +:+ dquote].

(** [[f"[bold blue]{2 ** (i + 1)}x[/bold blue]" for i in range(num_downscales)]] *)
Definition downscale_text (num_downscales : nat) : list string :=
  map (fun i => "[bold blue]" +:+ str_of_nat (2 ^ (i + 1)) +:+ "x[/bold blue]")
      (py_range num_downscales).

Definition downscale_images
    (image_dir : Path) (num_downscales : nat) (folder_name : string)
    (nearest_neighbor verbose : bool) : M string :=
  if (num_downscales =? 0)%nat then ret "No downscaling performed."
  else
    let downscale_factors :=
      map (fun i => (2 ^ i)%nat) (drop 1 (py_range (num_downscales + 1))) in
    for_each downscale_factors
      (fun downscale_factor =>
         (if (1 <? downscale_factor)%nat then ret tt else raise AssertionError) >>
         call w (Mkdir (downscale_images_dir image_dir folder_name downscale_factor)) >>
         (* Using %05d ffmpeg commands appears to be unreliable (skips images). *)
         let! images := list_images w image_dir in
         for_each images
           (fun f =>
              run_command w
                (downscale_images_cmd image_dir folder_name nearest_neighbor
                   downscale_factor f) verbose >>
              ret tt)) >>
    emit (ConsoleLog "[bold green]:tada: Done downscaling images.") >>
    match rev (downscale_text num_downscales) with
    | [] => raise IndexError
    | last_text :: _ =>
        ret ("We downsampled the images by "
             +:+ (str_join ", " (removelast (downscale_text num_downscales))
                  +:+ " and " +:+ last_text))
    end.

End Derived.

(** [np.array(image_paths)[idx]] for an array of integer indices: a
    negative index counts from the end, an index out of range raises
    IndexError. *)
Fixpoint np_take {A : Type} (xs : list A) (idx : list Z) : option (list A) :=
  match idx with
  | [] => Some []
  | i :: idx' =>
      let n := Z.of_nat (length xs) in
      match xs !! Z.to_nat (if i <? 0 then i + n else i), np_take xs idx' with
      | Some x, Some rest => if (i <? - n) then None else Some (x :: rest)
      | _, _ => None
      end
  end.

Section Filenames.
Context {PL : PathLib} (w : World).
Local Open Scope py_scope.

(** [np.round(np.linspace(0, stop, num)).astype(int)], or the exception
    that numpy raises. *)
Context (np_round_linspace : Z -> Z -> exn + list Z).

Definition get_image_filenames (directory : Path) (max_num_images : Z)
  : M (list Path * nat) :=
  let! image_paths := list_images w directory in
  let num_orig_images := length image_paths in
  let! idx :=
    (if negb (max_num_images =? -1) && (max_num_images <? Z.of_nat num_orig_images) then
       match np_round_linspace (Z.of_nat num_orig_images - 1) max_num_images with
       | inl e => raise e
       | inr idx => ret idx
       end
     else ret (map Z.of_nat (py_range num_orig_images))) in
  match np_take image_paths idx with
  | None => raise IndexError
  | Some image_filenames => ret (image_filenames, num_orig_images)
  end.

End Filenames.

(** ** Vocabulary of the further statements *)

(** *** Digits *)

Definition digits_only (s : string) : Prop :=
  Forall (fun c => is_digit c = true) (list_ascii_of_string s).

Definition digit_free (s : string) : Prop :=
  Forall (fun c => is_digit c = false) (list_ascii_of_string s).

Definition starts_without_digit (s : string) : Prop :=
  match s with
  | String c _ => is_digit c = false
  | EmptyString => True
  end.

(** One step of [int]: the value read so far and the next digit. *)
Definition digit_step (acc : nat) (c : ascii) : nat :=
  (10 * acc + (nat_of_ascii c - 48))%nat.

(** *** Events *)

Definition is_rmtree `{PL : PathLib} (e : Event) : bool :=
  match e with
  | Rmtree _ => true
  | _ => false
  end.

Definition not_rmtree `{PL : PathLib} (e : Event) : Prop := is_rmtree e = false.

Definition is_run_command `{PL : PathLib} (e : Event) : bool :=
  match e with
  | RunCommand _ => true
  | _ => false
  end.

(** A computation that only adds events that satisfy [P] to the trace,
    whatever the environment answers and however the computation ends. *)
Definition only_adds `{PL : PathLib} {A : Type} (P : Event -> Prop) (c : M A) : Prop :=
  forall st, exists events,
    trace (snd (c st)) = trace st ++ events /\ Forall P events.

(** Whether [copy_images_list] removes the image directories: the output
    directory exists, there are inputs, the directories are not to be kept
    and the output directory is not the directory of the first input. *)
Definition removes_image_dirs `{PL : PathLib} (w : World) (st : State)
    (image_paths : nat) (image_dir : Path) (keep_image_dir : bool) : bool :=
  match default [] (store st !! image_paths) with
  | [] => false
  | first :: _ =>
      os_is_dir w (trace st) image_dir && negb keep_image_dir
      && bool_decide (image_dir <> path_parent first)
  end.

(** *** The calls of the copy loop *)

(** The command of the slow path for one image. *)
Definition autorotate_cmd `{PL : PathLib} (image_path copied_image_path : Path) : string :=
  "ffmpeg -y -i " +:+ path_str image_path +:+ " -metadata:s:v:0 rotate=0 "
  +:+ path_str copied_image_path.

(** The calls of one turn of the copy loop, [n] being the length of the
    list. *)
Definition copy_one_events `{PL : PathLib} (n : nat) (image_dir : Path)
    (image_prefix : string) (verbose same_dimensions : bool) (idx : nat) (p : Path)
  : list Event :=
  let dst := destination image_dir image_prefix idx p in
  (if verbose
   then [ConsoleLog ("Copying image " +:+ str_of_nat (idx + 1) +:+ " of "
                     +:+ str_of_nat n +:+ "...")]
   else [])
  ++ (if is_raw p then [RawRead (path_str p); ImSave dst (path_str p)]
      else if same_dimensions then [ShutilCopy p dst]
      else (if verbose then [ConsoleLog ("... " +:+ autorotate_cmd p dst)] else [])
           ++ [RunCommand (autorotate_cmd p dst)]).

Definition copy_loop_events `{PL : PathLib} (n : nat) (image_dir : Path)
    (image_prefix : string) (verbose same_dimensions : bool) (start : nat)
    (paths : list Path) : list Event :=
  concat (imap (fun i p => copy_one_events n image_dir image_prefix verbose
                             same_dimensions (start + i) p) paths).

(** The downscaling command for the frames named [framename], with the
    suffix of the first copy. *)
Definition frames_cmd `{PL : PathLib} (w : World) (image_dir : Path)
    (num_downscales : nat) (crop_border_pixels : option Z) (crop_factor : crop_spec)
    (upscale_factor : option Z) (nearest_neighbor : bool)
    (framename : string) (first_copied : Path) : string :=
  let nn_flag := if negb nearest_neighbor then "" else ":flags=neighbor" in
  let crop_cmd :=
    match crop_border_pixels with
    | Some px =>
        "crop=iw-" +:+ str_of_Z (px * 2) +:+ ":ih-" +:+ str_of_Z (px * 2)
        +:+ "[cropped];[cropped]"
    | None =>
        if crop_requested crop_factor
        then crop_window w crop_factor +:+ "[cropped];[cropped]"
        else ""
    end in
  let select_cmd :=
    match upscale_factor with
    | Some f =>
        "[0:v]scale=iw*" +:+ str_of_Z f +:+ ":ih*" +:+ str_of_Z f
        +:+ ":flags=neighbor[upscaled];[upscaled]"
    | None => "[0:v]"
    end in
  ("ffmpeg -y -noautorotate -i " +:+ dquote
   +:+ path_str (path_join image_dir (framename +:+ path_suffix first_copied))
   +:+ dquote +:+ " ")
  +:+ images_downscale_cmd image_dir num_downscales nn_flag select_cmd crop_cmd
        framename (path_suffix first_copied).

(** The frame names the downscaling commands are issued for: the pattern
    when all images have the same dimensions, else each number. *)
Definition framenames (image_prefix : string) (same_dimensions : bool) (num_frames : nat)
  : list string :=
  if same_dimensions then [image_prefix +:+ "%05d"]
  else map (fun framenum => image_prefix +:+ fmt_05d framenum) (py_range1 num_frames).

(** The calls of the downscaling loop. *)
Definition frames_events `{PL : PathLib} (w : World) (image_dir : Path)
    (num_downscales : nat) (image_prefix : string) (crop_border_pixels : option Z)
    (crop_factor : crop_spec) (verbose : bool) (upscale_factor : option Z)
    (nearest_neighbor same_dimensions : bool) (num_frames : nat) (first_copied : Path)
  : list Event :=
  flat_map
    (fun framename =>
       let cmd := frames_cmd w image_dir num_downscales crop_border_pixels crop_factor
                    upscale_factor nearest_neighbor framename first_copied in
       (if verbose then [ConsoleLog ("... " +:+ cmd)] else []) ++ [RunCommand cmd])
    (framenames image_prefix same_dimensions num_frames).

Definition done_message (image_prefix : string) : string :=
  "[bold green]:tada: Done copying images with prefix '" +:+ image_prefix +:+ "'.".

(** The calls of [copy_images_list] after the removals, for a list of
    inputs [paths] with first element [first]. *)
Definition copy_images_list_events `{PL : PathLib} (w : World) (image_dir : Path)
    (num_downscales : nat) (image_prefix : string) (crop_border_pixels : option Z)
    (crop_factor : crop_spec) (verbose : bool) (upscale_factor : option Z)
    (nearest_neighbor same_dimensions : bool) (first : Path) (paths : list Path)
  : list Event :=
  [Mkdir image_dir]
  ++ copy_loop_events (length paths) image_dir image_prefix verbose same_dimensions 0 paths
  ++ map Mkdir (downscale_dirs image_dir num_downscales)
  ++ frames_events w image_dir num_downscales image_prefix crop_border_pixels crop_factor
       verbose upscale_factor nearest_neighbor same_dimensions (length paths)
       (destination image_dir image_prefix 0 first)
  ++ [ConsoleLog (done_message image_prefix)].

(** *** The calls of the separate downscaling *)

Definition allowed_image `{PL : PathLib} (p : Path) : bool :=
  str_in (str_lower (path_suffix p))
    ([".jpg"; ".jpeg"; ".png"; ".tif"; ".tiff"] ++ ALLOWED_RAW_EXTS).

(** For each factor the creation of its directory, then one command for
    each image. *)
Definition downscale_images_events `{PL : PathLib} (path_name : Path -> string)
    (image_dir : Path) (folder_name : string) (nearest_neighbor : bool)
    (factors : list nat) (images : list Path) : list Event :=
  flat_map
    (fun downscale_factor =>
       Mkdir (downscale_images_dir image_dir folder_name downscale_factor)
       :: map (fun f => RunCommand (downscale_images_cmd path_name image_dir folder_name
                                      nearest_neighbor downscale_factor f)) images)
    factors.

(** Directory creations, commands and log messages. *)
Definition creates_runs_or_logs `{PL : PathLib} (e : Event) : Prop :=
  match e with
  | Mkdir _ | RunCommand _ | ConsoleLog _ => True
  | _ => False
  end.

(** *** The selection of frames *)

(** The calls of [convert_video_to_images] up to the selection of frames,
    for a video of [num_frames] frames. *)
Definition before_selection `{PL : PathLib} (video_path image_dir : Path)
    (num_downscales : nat) (keep_image_dir : bool) (num_frames : nat) : list Event :=
  (if keep_image_dir then [] else removals image_dir num_downscales)
  ++ [Mkdir image_dir; RunCommand (ffprobe_cmd video_path);
      ConsolePrint ["Number of frames in video:"; str_of_nat num_frames]]
  ++ map Mkdir (downscale_dirs image_dir num_downscales).

(** The message, whether the pixel format is forced, and the selection
    filter of each of the three ways to select frames. *)
Definition selection `{PL : PathLib} (w : World) (num_frames : nat)
    (num_frames_target : Z) (random_seed : option Z) : string * bool * string :=
  let spacing := Z.of_nat num_frames / num_frames_target in
  if truthy random_seed then
    let seed := default 0 random_seed in
    ("Extracting " +:+ str_of_Z num_frames_target +:+ " frames using seed "
     +:+ str_of_Z seed +:+ " random selection.",
     false,
     random_select_cmd
       (merge_sort Nat.le
          (random_sample w seed num_frames (Z.to_nat num_frames_target))))
  else if 1 <? spacing then
    ("Extracting " +:+ str_of_Z (ceil_div (Z.of_nat num_frames) spacing)
     +:+ " frames in evenly spaced intervals",
     false,
     "thumbnail=" +:+ str_of_Z spacing +:+ ",setpts=N/TB,")
  else
    ("[bold red]Can't satisfy requested number of frames. Extracting all frames.",
     true,
     "").

(** The extraction command. *)
Definition extraction_cmd `{PL : PathLib} (w : World) (video_path image_dir : Path)
    (num_downscales : nat) (crop_factor : crop_spec) (image_prefix : string)
    (bgr8 : bool) (select_cmd : string) : string :=
  let ffmpeg_cmd :=
    ("ffmpeg -i " +:+ dquote +:+ path_str video_path +:+ dquote) +:+ " -vsync vfr" in
  (if bgr8 then ffmpeg_cmd +:+ " -pix_fmt bgr8" else ffmpeg_cmd)
  +:+ video_downscale_cmd image_dir num_downscales image_prefix select_cmd
        (if crop_requested crop_factor then crop_window w crop_factor +:+ "," else "").

(** *** A video the frames of which cannot be counted *)

Definition unreadable_count `{PL : PathLib} (w : World) (video_path : Path) : Prop :=
  forall tr,
    command_stdout w tr (ffprobe_cmd video_path) = None
    \/ exists out,
         command_stdout w tr (ffprobe_cmd video_path) = Some out /\ digit_free out.

(** ** Further sample environments *)

(** [p.name] on the sample platform. *)
Definition posix_name_str (p : @Path posix_paths) : string :=
  string_of_list_ascii (posix_name p).

(** The sample environment with an inspection pass that prints no number. *)
Definition silent_probe_world : @World posix_paths :=
  @mkWorld posix_paths
    (os_is_dir sample_world)
    (os_exists sample_world)
    (os_glob sample_world)
    (call_fails sample_world)
    (fun _ _ => Some "N/A")
    (random_sample sample_world)
    (float_repr sample_world)
    (cv2_circle sample_world).

(** The sample environment with an inspection pass that labels the count
    and prints a second number. *)
Definition labelled_probe_world : @World posix_paths :=
  @mkWorld posix_paths
    (os_is_dir sample_world)
    (os_exists sample_world)
    (os_glob sample_world)
    (call_fails sample_world)
    (fun _ _ => Some "packets=96,1")
    (random_sample sample_world)
    (float_repr sample_world)
    (cv2_circle sample_world).

(** The sample environment with a directory that holds no image. *)
Definition text_only_world : @World posix_paths :=
  @mkWorld posix_paths
    (os_is_dir sample_world)
    (os_exists sample_world)
    (fun _ _ _ => [posix "in/notes.txt"])
    (call_fails sample_world)
    (command_stdout sample_world)
    (random_sample sample_world)
    (float_repr sample_world)
    (cv2_circle sample_world).

(** The sample environment in which every directory exists. *)
Definition existing_dirs_world : @World posix_paths :=
  @mkWorld posix_paths
    (fun _ _ => true)
    (os_exists sample_world)
    (os_glob sample_world)
    (call_fails sample_world)
    (command_stdout sample_world)
    (random_sample sample_world)
    (float_repr sample_world)
    (cv2_circle sample_world).

(** A crop with a fraction above 1. *)
Definition excessive_crop : crop_spec := (3 # 2, 0, 0, 0)%Q.


(** A state with one list object that holds a depth map. *)
Definition one_depth_map : @State posix_paths :=
  mkState [] [[posix "scan/depth/0.png"]].

(** Rounding the samples of an interval is not available. *)
Definition no_linspace (stop num : Z) : exn + list Z := inl ValueError.

(** * Properties *)

(** ** Matcher combination resolver *)

Lemma str_in_spec x xs : str_in x xs = true <-> In x xs.
Proof.
  unfold str_in. rewrite existsb_exists. split.
  - intros (y & Hy & Heq). apply String.eqb_eq in Heq. now subst.
  - intros Hin. exists x. split; [assumption | apply String.eqb_refl].
Qed.

Lemma colmap_compatible_spec f m :
  colmap_compatible f m = true <-> In f ["any"; "sift"] /\ In m ["any"; "NN"].
Proof.
  unfold colmap_compatible. now rewrite andb_true_iff, !str_in_spec.
Qed.

Lemma resolve_any f m :
  find_tool_feature_matcher_combination "any" f m
  = find_tool_feature_matcher_combination
      (if colmap_compatible f m then "colmap" else "hloc") f m.
Proof.
  unfold find_tool_feature_matcher_combination, colmap_compatible.
  cbv zeta. change (String.eqb "any" "any") with true. cbv iota.
  destruct (str_in f ["any"; "sift"] && str_in m ["any"; "NN"]); reflexivity.
Qed.

Lemma resolve_colmap f m :
  find_tool_feature_matcher_combination "colmap" f m = colmap_path f m.
Proof.
  unfold find_tool_feature_matcher_combination, colmap_path, colmap_compatible.
  cbv zeta. change (String.eqb "colmap" "any") with false. cbv iota.
  change (String.eqb "colmap" "colmap") with true. cbv iota.
  destruct (str_in f ["any"; "sift"]), (str_in m ["any"; "NN"]); reflexivity.
Qed.

Lemma resolve_hloc f m :
  find_tool_feature_matcher_combination "hloc" f m = hloc_path f m.
Proof.
  unfold find_tool_feature_matcher_combination, hloc_path, hloc_feature, hloc_matcher.
  unfold str_in. simpl. rewrite !orb_false_r. reflexivity.
Qed.

Lemma resolve_other s f m :
  ~ In s sfm_tools -> find_tool_feature_matcher_combination s f m = null_triple.
Proof.
  intros Hs. unfold find_tool_feature_matcher_combination.
  assert (String.eqb s "any" = false) as ->.
  { apply String.eqb_neq. intros ->. apply Hs. simpl. tauto. }
  assert (String.eqb s "colmap" = false) as ->.
  { apply String.eqb_neq. intros ->. apply Hs. simpl. tauto. }
  assert (String.eqb s "hloc" = false) as ->.
  { apply String.eqb_neq. intros ->. apply Hs. simpl. tauto. }
  reflexivity.
Qed.

Lemma hloc_feature_passes f :
  f <> "any" -> f <> "superpoint" -> hloc_feature f = f.
Proof.
  intros Hany Hsp. unfold hloc_feature.
  apply String.eqb_neq in Hany, Hsp. now rewrite Hany, Hsp.
Qed.

Lemma hloc_matcher_passes m :
  m <> "any" -> m <> "NN" -> hloc_matcher m = m.
Proof.
  intros Hany Hnn. unfold hloc_matcher.
  apply String.eqb_neq in Hany, Hnn. now rewrite Hany, Hnn.
Qed.

Lemma resolve_concrete_or_null s f m :
  In s sfm_tools -> In f feature_types -> In m matcher_types ->
  find_tool_feature_matcher_combination s f m = null_triple
  \/ fully_concrete (find_tool_feature_matcher_combination s f m).
Proof.
  intros Hs Hf Hm. simpl in Hs, Hf, Hm.
  repeat (destruct Hs as [<- | Hs]); try contradiction;
    repeat (destruct Hf as [<- | Hf]); try contradiction;
    repeat (destruct Hm as [<- | Hm]); try contradiction;
    vm_compute;
    first [ left; reflexivity
          | right; eexists _, _, _; split; [reflexivity | tauto] ].
Qed.

(** C1. The resolver is a total function of its three strings. The wildcard
    tool resolves to colmap when the feature is any or sift and the matcher
    is any or NN, and to hloc otherwise; the colmap path gives the canonical
    triple (colmap, sift, NN) exactly for those features and matchers and
    the all-null triple otherwise; the hloc path maps the features any and
    superpoint to superpoint_aachen, the matcher any to superpoint+lightglue,
    the matcher NN to NN-mutual, and passes every other value through; any
    other tool gives the all-null triple. On the literal sets of the
    signature the result is the all-null triple or a fully concrete one. *)
Theorem resolver_rules_and_totality (s f m : string) :
  find_tool_feature_matcher_combination "any" f m
  = find_tool_feature_matcher_combination
      (if colmap_compatible f m then "colmap" else "hloc") f m
  /\ (colmap_compatible f m = true <-> In f ["any"; "sift"] /\ In m ["any"; "NN"])
  /\ find_tool_feature_matcher_combination "colmap" f m
     = (if colmap_compatible f m
        then (Some "colmap", Some "sift", Some "NN")
        else (None, None, None))
  /\ find_tool_feature_matcher_combination "hloc" f m
     = (Some "hloc", Some (hloc_feature f), Some (hloc_matcher m))
  /\ hloc_feature "any" = "superpoint_aachen"
  /\ hloc_feature "superpoint" = "superpoint_aachen"
  /\ (f <> "any" -> f <> "superpoint" -> hloc_feature f = f)
  /\ hloc_matcher "any" = "superpoint+lightglue"
  /\ hloc_matcher "NN" = "NN-mutual"
  /\ (m <> "any" -> m <> "NN" -> hloc_matcher m = m)
  /\ (~ In s sfm_tools ->
      find_tool_feature_matcher_combination s f m = (None, None, None))
  /\ (In s sfm_tools -> In f feature_types -> In m matcher_types ->
      find_tool_feature_matcher_combination s f m = (None, None, None)
      \/ fully_concrete (find_tool_feature_matcher_combination s f m)).
Proof.
  split; [apply resolve_any|].
  split; [apply colmap_compatible_spec|].
  split; [apply resolve_colmap|].
  split; [apply resolve_hloc|].
  split; [reflexivity|]. split; [reflexivity|].
  split; [apply hloc_feature_passes|].
  split; [reflexivity|]. split; [reflexivity|].
  split; [apply hloc_matcher_passes|].
  split; [apply resolve_other | apply resolve_concrete_or_null].
Qed.

Lemma resolver_rules_and_totality_witness :
  find_tool_feature_matcher_combination "hloc" "disk" "NN"
  = (Some "hloc", Some "disk", Some "NN-mutual")
  /\ (find_tool_feature_matcher_combination "hloc" "disk" "NN" = (None, None, None)
      \/ fully_concrete (find_tool_feature_matcher_combination "hloc" "disk" "NN")).
Proof.
  destruct (resolver_rules_and_totality "hloc" "disk" "NN")
    as (_ & _ & _ & Hhloc & _ & _ & Hfeature & _ & _ & _ & _ & Hconcrete).
  split.
  - rewrite Hhloc, Hfeature by discriminate. reflexivity.
  - apply Hconcrete; simpl; tauto.
Defined.

(** ** Arrays *)














(** ** Rationals and truncation *)

Section Rationals.
Local Open Scope Q_scope.

Lemma Qlt_bool_iff x y : Qlt_bool x y = true <-> x < y.
Proof.
  unfold Qlt_bool. rewrite negb_true_iff. split.
  - intros Hb. apply Qnot_le_lt. intros Hle. apply Qle_bool_iff in Hle. congruence.
  - intros Hlt. destruct (Qle_bool y x) eqn:Hb; [|reflexivity].
    apply Qle_bool_iff in Hb. exfalso. exact (Qlt_not_le _ _ Hlt Hb).
Qed.

Lemma Qlt_bool_false x y : Qlt_bool x y = false <-> y <= x.
Proof.
  unfold Qlt_bool. rewrite negb_false_iff. apply Qle_bool_iff.
Qed.



End Rationals.

(** ** Mask generation *)

Lemma all_zero_b cf :
  forallb (fun x => Qeq_bool x 0) (crop_list cf) = true <-> all_zero cf.
Proof.
  unfold all_zero. rewrite forallb_forall, List.Forall_forall.
  split; intros H x Hx; apply Qeq_bool_iff; auto.
Qed.

Lemma some_outside_b cf :
  existsb (fun x => Qlt_bool x 0) (crop_list cf)
  || existsb (fun x => Qlt_bool 1 x) (crop_list cf) = true
  <-> some_outside_unit cf.
Proof.
  unfold some_outside_unit. rewrite orb_true_iff, !existsb_exists, List.Exists_exists.
  split.
  - intros [(x & Hx & Hb) | (x & Hx & Hb)]; apply Qlt_bool_iff in Hb; eauto.
  - intros (x & Hx & [Hb | Hb]); apply Qlt_bool_iff in Hb; eauto.
Qed.

Lemma not_outside_in_unit cf : ~ some_outside_unit cf <-> all_in_unit cf.
Proof.
  unfold some_outside_unit, all_in_unit.
  rewrite List.Exists_exists, List.Forall_forall. split.
  - intros Hno x Hx. split.
    + destruct (Qlt_le_dec x 0) as [Hlt | Hle]; [|assumption].
      exfalso. apply Hno. eauto.
    + destruct (Qlt_le_dec 1 x) as [Hlt | Hle]; [|assumption].
      exfalso. apply Hno. eauto.
  - intros Hall (x & Hx & Hout). destruct (Hall x Hx) as [H0 H1].
    destruct Hout as [Hlt | Hlt].
    + exact (Qlt_not_le _ _ Hlt H0).
    + exact (Qlt_not_le _ _ Hlt H1).
Qed.

Lemma all_zero_in_unit cf : all_zero cf -> all_in_unit cf.
Proof.
  unfold all_zero, all_in_unit. rewrite !List.Forall_forall.
  intros Hz x Hx. specialize (Hz x Hx). split; rewrite Hz; discriminate.
Qed.



Section MaskFacts.
Context {PL : PathLib} (w : World).

Lemma generate_crop_mask_none h wd cf st :
  all_zero cf -> generate_crop_mask h wd cf st = (Returned None, st).
Proof.
  intros Hz. unfold generate_crop_mask.
  apply all_zero_b in Hz. rewrite Hz. reflexivity.
Qed.

Lemma generate_crop_mask_fatal h wd cf st :
  some_outside_unit cf ->
  generate_crop_mask h wd cf st = (Exited 1, record_call (ConsoleLog crop_error) st).
Proof.
  intros Hout. unfold generate_crop_mask.
  destruct (forallb (fun x => Qeq_bool x 0) (crop_list cf)) eqn:Hz.
  - apply all_zero_b, all_zero_in_unit, not_outside_in_unit in Hz. contradiction.
  - apply some_outside_b in Hout. rewrite Hout. reflexivity.
Qed.

Lemma generate_crop_mask_some h wd top bottom left_ right_ st :
  ~ all_zero (top, bottom, left_, right_) ->
  all_in_unit (top, bottom, left_, right_) ->
  generate_crop_mask h wd (top, bottom, left_, right_) st
  = (Returned
       (Some (np_assign_slice2 (np_zeros h wd)
                (crop_px top h) (Z.of_nat h - crop_px bottom h)
                (crop_px left_ wd) (Z.of_nat wd - crop_px right_ wd) 1)), st).
Proof.
  intros Hnz Hin. unfold generate_crop_mask.
  destruct (forallb (fun x => Qeq_bool x 0) (crop_list (top, bottom, left_, right_))) eqn:Hz.
  - apply all_zero_b in Hz. contradiction.
  - destruct (existsb (fun x => Qlt_bool x 0) (crop_list (top, bottom, left_, right_))
              || existsb (fun x => Qlt_bool 1 x) (crop_list (top, bottom, left_, right_)))
      eqn:Hout.
    + apply some_outside_b in Hout. apply not_outside_in_unit in Hin. contradiction.
    + reflexivity.
Qed.

End MaskFacts.





Section MaskTheorems.
Context {PL : PathLib} (w : World).



Lemma generate_circle_mask_fatal h wd r st :
  (r <= 0)%Q ->
  generate_circle_mask w h wd r st = (Exited 1, record_call (ConsoleLog radius_error) st).
Proof.
  intros Hr. unfold generate_circle_mask.
  apply Qle_bool_iff in Hr. rewrite Hr. reflexivity.
Qed.

Lemma generate_circle_mask_none h wd r st :
  (1 <= r)%Q -> generate_circle_mask w h wd r st = (Returned None, st).
Proof.
  intros Hr. unfold generate_circle_mask.
  destruct (Qle_bool r 0) eqn:H0.
  - apply Qle_bool_iff in H0. lra.
  - apply Qle_bool_iff in Hr. rewrite Hr. reflexivity.
Qed.

Lemma generate_circle_mask_some h wd r st :
  (0 < r)%Q -> (r < 1)%Q ->
  generate_circle_mask w h wd r st
  = (Returned (Some (cv2_circle w (np_zeros h wd)
                       (Z.of_nat wd / 2, Z.of_nat h / 2) (circle_radius r h wd) 1 (-1))),
     st).
Proof.
  intros H0 H1. unfold generate_circle_mask.
  destruct (Qle_bool r 0) eqn:Hb0; [apply Qle_bool_iff in Hb0; lra|].
  destruct (Qle_bool 1 r) eqn:Hb1; [apply Qle_bool_iff in Hb1; lra|].
  reflexivity.
Qed.



End MaskTheorems.




Lemma sample_crop_all_in_unit : all_in_unit sample_crop.
Proof.
  unfold all_in_unit, sample_crop. simpl.
  repeat constructor; discriminate.
Qed.




(** ** The effect monad *)

Section MonadFacts.
Context {PL : PathLib} (w : World).

Lemma bind_returned {A B} (c : M A) (k : A -> M B) st a st' :
  c st = (Returned a, st') -> bind c k st = k a st'.
Proof. intros Hc. unfold bind. rewrite Hc. reflexivity. Qed.

Lemma bind_raised {A B} (c : M A) (k : A -> M B) st e st' :
  c st = (Raised e, st') -> bind c k st = (Raised e, st').
Proof. intros Hc. unfold bind. rewrite Hc. reflexivity. Qed.

Lemma bind_exited {A B} (c : M A) (k : A -> M B) st code st' :
  c st = (Exited code, st') -> bind c k st = (Exited code, st').
Proof. intros Hc. unfold bind. rewrite Hc. reflexivity. Qed.

Lemma bind_ret {A B} (a : A) (k : A -> M B) st : bind (ret a) k st = k a st.
Proof. reflexivity. Qed.

Lemma bind_ask {A B} (q : list Event -> A) (k : A -> M B) st :
  bind (ask q) k st = k (q (trace st)) st.
Proof. reflexivity. Qed.

Lemma bind_emit {B} e (k : unit -> M B) st :
  bind (emit e) k st = k tt (record_call e st).
Proof. reflexivity. Qed.

Lemma bind_assoc {A B C} (c : M A) (k1 : A -> M B) (k2 : B -> M C) st :
  bind (bind c k1) k2 st = bind c (fun a => bind (k1 a) k2) st.
Proof. unfold bind. destruct (c st) as [[a | e | code] st']; reflexivity. Qed.

Lemma call_dependable e st :
  dependable w -> (forall src dst, e <> ShutilCopy src dst) ->
  call w e st = (Returned tt, record_call e st).
Proof.
  intros Hw He. unfold call.
  destruct (Hw (trace st) e) as [-> | [_ (src & dst & ->)]]; [reflexivity|].
  now destruct (He src dst).
Qed.

Lemma bind_call {B} e (k : unit -> M B) st :
  dependable w -> (forall src dst, e <> ShutilCopy src dst) ->
  bind (call w e) k st = k tt (record_call e st).
Proof.
  intros Hw He. unfold bind. now rewrite call_dependable.
Qed.

Lemma for_each_emit {A} (xs : list A) (f : A -> Event) st :
  for_each xs (fun x => emit (f x)) st
  = (Returned tt, mkState (trace st ++ map f xs) (store st)).
Proof.
  revert st. induction xs as [|x xs IH]; intros [tr sto]; simpl.
  - unfold ret. now rewrite app_nil_r.
  - unfold bind, emit, record_call. simpl. rewrite IH. simpl.
    now rewrite <- app_assoc.
Qed.

Lemma for_each_mkdir (dirs : list Path) st :
  dependable w ->
  for_each dirs (fun dir => call w (Mkdir dir)) st
  = (Returned tt, mkState (trace st ++ map Mkdir dirs) (store st)).
Proof.
  intros Hw. revert st. induction dirs as [|d dirs IH]; intros [tr sto]; simpl.
  - unfold ret. now rewrite app_nil_r.
  - unfold bind. rewrite call_dependable by (assumption || discriminate).
    unfold record_call. simpl. rewrite IH. simpl. now rewrite <- app_assoc.
Qed.

End MonadFacts.

Section VideoFacts.
Context {PL : PathLib} (w : World).

Lemma remove_image_dirs_run image_dir D st :
  remove_image_dirs image_dir D st
  = (Returned tt, mkState (trace st ++ removals image_dir D) (store st)).
Proof. unfold remove_image_dirs, removals. apply for_each_emit. Qed.

Lemma removals_length image_dir D : length (removals image_dir D) = (D + 1)%nat.
Proof. unfold removals, py_range. now rewrite length_map, length_seq. Qed.

Lemma crop_check_passes xs st :
  Forall (fun x => 0 <= x /\ x <= 1)%Q xs ->
  for_each xs crop_check st = (Returned tt, st).
Proof.
  induction 1 as [|x xs [H0 H1] _ IH]; [reflexivity|].
  simpl. unfold bind, crop_check.
  apply Qlt_bool_false in H0, H1. rewrite H0, H1. simpl. exact IH.
Qed.

Lemma crop_check_stops xs st :
  Exists (fun x => x < 0 \/ 1 < x)%Q xs ->
  for_each xs crop_check st
  = (Exited 1, record_call (ConsolePrint [crop_factor_error]) st).
Proof.
  induction xs as [|x xs IH]; intros Hex.
  - now apply Exists_nil in Hex.
  - simpl. unfold bind at 1. unfold crop_check at 1.
    destruct (Qlt_bool x 0 || Qlt_bool 1 x) eqn:Hb.
    + reflexivity.
    + simpl. apply IH. apply Exists_cons in Hex as [Hx | Hx]; [|assumption].
      apply orb_false_iff in Hb as [Hb0 Hb1].
      apply Qlt_bool_false in Hb0, Hb1. lra.
Qed.

Lemma run_command_run cmd verbose st :
  dependable w ->
  run_command w cmd verbose st
  = (Returned (command_stdout w (trace st ++ [RunCommand cmd]) cmd),
     record_call (RunCommand cmd) st).
Proof.
  intros Hw. unfold run_command.
  rewrite bind_call by (assumption || discriminate). reflexivity.
Qed.

Lemma get_num_frames_in_video_run video N st :
  dependable w -> probed_frames w video N ->
  get_num_frames_in_video w video st
  = (Returned N, record_call (RunCommand (ffprobe_cmd video)) st).
Proof.
  intros Hw Hprobe. unfold get_num_frames_in_video, run_command.
  unfold bind at 1. unfold bind at 1.
  rewrite call_dependable by (assumption || discriminate).
  unfold ask.
  destruct (Hprobe (trace (record_call (RunCommand (ffprobe_cmd video)) st)))
    as (out & digits & -> & Hre & HN).
  rewrite Hre. unfold ret. now rewrite HN.
Qed.

End VideoFacts.


(** ** Video frame extraction *)

Section VideoTheorems.
Context {PL : PathLib} (w : World).

Lemma convert_video_prologue {A} image_dir D keep st (rest : M A) :
  dependable w ->
  bind (if negb keep then remove_image_dirs image_dir D else ret tt)
       (fun _ => bind (call w (Mkdir image_dir)) (fun _ => rest)) st
  = rest (mkState (trace st ++ (if keep then [] else removals image_dir D)
                             ++ [Mkdir image_dir]) (store st)).
Proof.
  intros Hw. destruct keep; simpl.
  - unfold bind, ret. rewrite call_dependable by (assumption || discriminate).
    reflexivity.
  - rewrite (bind_returned _ _ _ _ _ (remove_image_dirs_run image_dir D st)).
    unfold bind. rewrite call_dependable by (assumption || discriminate).
    unfold record_call. simpl. now rewrite <- app_assoc.
Qed.

Lemma removal_comes_first video_path image_dir target D cf verbose prefix seed st :
  convert_video_to_images w video_path image_dir target D cf verbose prefix false seed st
  = convert_video_to_images w video_path image_dir target D cf verbose prefix true seed
      (mkState (trace st ++ removals image_dir D) (store st)).
Proof.
  unfold convert_video_to_images. simpl negb. cbv iota.
  rewrite (bind_returned _ _ _ _ _ (remove_image_dirs_run image_dir D st)).
  rewrite bind_ret. reflexivity.
Qed.

(** C9. Without keep_image_dir the D+1 output directories (image_dir and
    image_dir_{2^i} for i = 1..D) are removed before anything is validated:
    the run is the run that keeps the directories, started after the
    removals. Hence each fatal exit (a crop fraction out of range, a video
    path that is a directory, a video that does not exist, a video without
    frames) happens with the removals already made. *)
Theorem removal_precedes_fatal_exits
    video_path image_dir target D cf verbose prefix seed st :
  let run :=
    convert_video_to_images w video_path image_dir target D cf verbose prefix false seed st in
  let after_removal := trace st ++ removals image_dir D ++ [Mkdir image_dir] in
  length (removals image_dir D) = (D + 1)%nat
  /\ run
     = convert_video_to_images w video_path image_dir target D cf verbose prefix true seed
         (mkState (trace st ++ removals image_dir D) (store st))
  /\ (dependable w -> some_outside_unit cf ->
      run = (Exited 1,
             mkState (after_removal ++ [ConsolePrint [crop_factor_error]]) (store st)))
  /\ (dependable w -> all_in_unit cf -> os_is_dir w after_removal video_path = true ->
      run = (Exited 1,
             mkState (after_removal
                      ++ [ConsolePrint
                            ["[bold red]Error: Video path is a directory, not a path: "
                             +:+ path_str video_path]]) (store st)))
  /\ (dependable w -> all_in_unit cf -> os_is_dir w after_removal video_path = false ->
      os_exists w after_removal video_path = false ->
      run = (Exited 1,
             mkState (after_removal
                      ++ [ConsolePrint
                            ["[bold red]Error: Video does not exist: "
                             +:+ path_str video_path]]) (store st)))
  /\ (dependable w -> all_in_unit cf -> os_is_dir w after_removal video_path = false ->
      os_exists w after_removal video_path = true ->
      probed_frames w video_path 0 ->
      run = (Exited 1,
             mkState (after_removal
                      ++ [RunCommand (ffprobe_cmd video_path);
                          ConsolePrint
                            ["[bold red]Error: Video has no frames: "
                             +:+ path_str video_path]]) (store st))).
Proof.
  intros run after_removal.
  split; [apply removals_length|].
  split; [apply removal_comes_first|].
  unfold run, convert_video_to_images.
  split; [|split; [|split]].
  all: intros Hw; rewrite convert_video_prologue by assumption.
  all: change (trace st ++ (if false then [] else removals image_dir D) ++ [Mkdir image_dir])
         with after_removal.
  all: set (st1 := mkState after_removal (store st)).
  all: change (fun i : Q =>
                 if Qlt_bool i 0 || Qlt_bool 1 i
                 then bind (emit (ConsolePrint
                                    ["[bold red]Error: Invalid crop factor. All crops must be in [0,1]."]))
                        (fun _ => sys_exit 1)
                 else ret tt) with crop_check.
  - intros Hout. apply bind_exited. now rewrite crop_check_stops.
  - intros Hin Hdir.
    rewrite (bind_returned _ _ _ _ _ (crop_check_passes _ st1 Hin)).
    rewrite bind_ask. simpl trace. rewrite Hdir. reflexivity.
  - intros Hin Hdir Hex.
    rewrite (bind_returned _ _ _ _ _ (crop_check_passes _ st1 Hin)).
    rewrite bind_ask. simpl trace. rewrite Hdir, bind_ret.
    rewrite bind_ask. simpl trace. rewrite Hex. reflexivity.
  - intros Hin Hdir Hex Hprobe.
    rewrite (bind_returned _ _ _ _ _ (crop_check_passes _ st1 Hin)).
    rewrite bind_ask. simpl trace. rewrite Hdir, bind_ret.
    rewrite bind_ask. simpl trace. rewrite Hex. change (negb true) with false.
    cbv iota. rewrite bind_ret.
    rewrite (bind_returned _ _ _ _ _
               (get_num_frames_in_video_run w video_path 0%nat st1 Hw Hprobe)).
    change ((0 =? 0)%nat) with true. cbv iota.
    apply bind_exited. unfold st1, after_removal, bind, emit, sys_exit, record_call.
    simpl. rewrite <- !app_assoc. reflexivity.
Qed.



(** C3. A supplied seed should select the frames by a seeded sample; the
    seed 0 is supplied and yet the run is the run without a seed, which
    selects by spacing or extracts all frames. *)
Theorem zero_seed_is_ignored
    video_path image_dir target D cf verbose prefix keep st :
  truthy (Some 0) = false
  /\ convert_video_to_images w video_path image_dir target D cf verbose prefix keep
       (Some 0) st
     = convert_video_to_images w video_path image_dir target D cf verbose prefix keep
         None st
  /\ forall seed, truthy (Some seed) = true <-> seed <> 0.
Proof.
  split; [reflexivity|]. split; [reflexivity|].
  intros seed. simpl. rewrite negb_true_iff. apply Z.eqb_neq.
Qed.

(** A seed other than 0 selects the sorted seeded sample. *)
Lemma seeded_frame_selection
    (video_path image_dir : Path) (target : Z) (D : nat) (cf : crop_spec)
    (verbose : bool) (prefix : string) (keep : bool) (st : State) (N : nat) (seed : Z) :
  dependable w -> all_in_unit cf -> video_is_file w video_path ->
  probed_frames w video_path N -> N <> 0%nat ->
  seed <> 0 -> 0 < target <= Z.of_nat N ->
  let frame_indices :=
    merge_sort Nat.le (random_sample w seed N (Z.to_nat target)) in
  let before :=
    trace st ++ (if keep then [] else removals image_dir D)
    ++ [Mkdir image_dir; RunCommand (ffprobe_cmd video_path);
        ConsolePrint ["Number of frames in video:"; str_of_nat N]]
    ++ map Mkdir (downscale_dirs image_dir D) in
  let ffmpeg_cmd :=
    ("ffmpeg -i " +:+ dquote +:+ path_str video_path +:+ dquote) +:+ " -vsync vfr" in
  let crop_cmd :=
    if crop_requested cf then crop_window w cf +:+ "," else "" in
  let run :=
    convert_video_to_images w video_path image_dir target D cf verbose prefix keep
      (Some seed) st in
  Sorted Nat.le frame_indices
  /\ frame_indices ≡ₚ random_sample w seed N (Z.to_nat target)
  /\ exists summary,
      fst run = Returned summary
      /\ trace (snd run)
         = before
           ++ [ConsolePrint
                 ["Extracting " +:+ str_of_Z target +:+ " frames using seed "
                  +:+ str_of_Z seed +:+ " random selection."];
               RunCommand
                 (ffmpeg_cmd
                  +:+ video_downscale_cmd image_dir D prefix
                        (random_select_cmd frame_indices) crop_cmd);
               ConsoleLog "[bold green]:tada: Done converting video to images."].
Proof.
  intros Hw Hin [Hdir Hex] Hprobe HN Hseed Ht frame_indices before ffmpeg_cmd crop_cmd run.
  split; [apply Sorted_merge_sort; apply _|].
  split; [apply merge_sort_Permutation|].
  unfold run, convert_video_to_images.
  rewrite convert_video_prologue by assumption.
  set (st1 := mkState _ (store st)).
  change (fun i : Q =>
            if Qlt_bool i 0 || Qlt_bool 1 i
            then bind (emit (ConsolePrint
                               ["[bold red]Error: Invalid crop factor. All crops must be in [0,1]."]))
                   (fun _ => sys_exit 1)
            else ret tt) with crop_check.
  rewrite (bind_returned _ _ _ _ _ (crop_check_passes _ st1 Hin)).
  rewrite bind_ask, Hdir, bind_ret.
  rewrite bind_ask, Hex. change (negb true) with false. cbv iota. rewrite bind_ret.
  rewrite (bind_returned _ _ _ _ _
             (get_num_frames_in_video_run w video_path N st1 Hw Hprobe)).
  apply Nat.eqb_neq in HN. rewrite HN, bind_ret, bind_emit.
  rewrite (bind_returned _ _ _ _ _ (for_each_mkdir w _ _ Hw)).
  assert ((target =? 0) = false) as -> by (apply Z.eqb_neq; lia).
  rewrite bind_ret.
  assert (truthy (Some seed) = true) as ->
    by (simpl; apply negb_true_iff, Z.eqb_neq; assumption).
  assert (((target <? 0) || (Z.of_nat N <? target)) = false) as ->.
  { apply orb_false_iff. split; apply Z.ltb_ge; lia. }
  fold crop_cmd. change (default 0 (Some seed)) with seed. fold frame_indices.
  rewrite bind_assoc, bind_emit, bind_ret.
  rewrite (bind_returned _ _ _ _ _ (run_command_run w _ _ _ Hw)).
  rewrite bind_ask, bind_emit. unfold ret, st1, record_call. simpl.
  eexists. split; [reflexivity|].
  unfold before. rewrite <- !app_assoc. reflexivity.
Qed.

End VideoTheorems.


(** ** Image copying *)

Section CopyFacts.
Context {PL : PathLib} (w : World).

Lemma list_getitem_run loc idx st l p :
  store st !! loc = Some l -> l !! idx = Some p ->
  list_getitem loc idx st = (Returned p, st).
Proof.
  intros Hl Hp. unfold list_getitem. rewrite Hl. simpl. rewrite Hp. reflexivity.
Qed.

Lemma list_contents_run loc st l :
  store st !! loc = Some l -> list_contents loc st = (Returned l, st).
Proof. intros Hl. unfold list_contents. rewrite Hl. reflexivity. Qed.

Lemma list_setitem_run loc idx p st l :
  store st !! loc = Some l -> (idx < length l)%nat ->
  list_setitem loc idx p st
  = (Returned tt, mkState (trace st) (<[loc := <[idx := p]> l]> (store st))).
Proof.
  intros Hl Hidx. unfold list_setitem. rewrite Hl. simpl.
  apply Nat.ltb_lt in Hidx. rewrite Hidx. reflexivity.
Qed.

Lemma shutil_copy_run src dst st :
  dependable w ->
  except_same_file (call w (ShutilCopy src dst)) st
  = (Returned tt, record_call (ShutilCopy src dst) st).
Proof.
  intros Hw. unfold except_same_file, call.
  destruct (Hw (trace st) (ShutilCopy src dst)) as [-> | [-> _]]; reflexivity.
Qed.

Lemma copy_one_run loc image_dir prefix verbose same idx st done p turns :
  dependable w ->
  store st !! loc = Some (done ++ p :: turns) -> length done = idx ->
  exists events,
    copy_one w loc image_dir prefix verbose same idx st
    = (Returned (destination image_dir prefix idx p),
       mkState (trace st ++ events)
         (if is_raw p
          then <[loc := done ++ destination image_dir prefix idx p :: turns]> (store st)
          else store st)).
Proof.
  intros Hw Hstore Hlen. unfold copy_one.
  assert ((done ++ p :: turns) !! idx = Some p) as Hp
    by (subst idx; apply list_lookup_middle; reflexivity).
  rewrite (bind_returned _ _ _ _ _ (list_getitem_run loc idx st _ p Hstore Hp)).
  set (log := if verbose then _ else _).
  assert (exists ev, log st = (Returned tt, mkState (trace st ++ ev) (store st)))
    as [ev Hlog].
  { unfold log. destruct verbose.
    - rewrite (bind_returned _ _ _ _ _ (list_contents_run loc st _ Hstore)).
      eexists. reflexivity.
    - exists []. unfold ret. rewrite app_nil_r. now destruct st. }
  rewrite (bind_returned _ _ _ _ _ Hlog). clear Hlog log.
  set (st1 := mkState (trace st ++ ev) (store st)).
  unfold destination at 1 2 3. destruct (is_raw p) eqn:Hraw.
  - unfold bind at 1. unfold except_same_file.
    rewrite bind_call by (assumption || discriminate).
    rewrite bind_call by (assumption || discriminate).
    erewrite list_setitem_run; [| exact Hstore | rewrite length_app; simpl; lia].
    unfold ret, record_call, st1. simpl. eexists.
    rewrite <- !app_assoc. f_equal. f_equal. f_equal.
    subst idx. rewrite insert_app_r_alt by lia.
    rewrite Nat.sub_diag. unfold destination. rewrite Hraw. reflexivity.
  - destruct same.
    + unfold bind at 1. rewrite shutil_copy_run by assumption.
      unfold ret, record_call, st1. simpl. eexists.
      rewrite <- !app_assoc. unfold destination. rewrite Hraw. reflexivity.
    + match goal with |- context [except_same_file ?c] => set (slow := c) end.
      assert (exists ev2, slow st1 = (Returned tt, mkState (trace st1 ++ ev2) (store st1)))
        as [ev2 Hslow].
      { unfold slow. destruct verbose.
        - rewrite bind_emit.
          rewrite (bind_returned _ _ _ _ _ (run_command_run w _ _ _ Hw)).
          unfold ret, record_call. simpl. eexists. rewrite <- !app_assoc. reflexivity.
        - rewrite bind_ret.
          rewrite (bind_returned _ _ _ _ _ (run_command_run w _ _ _ Hw)).
          unfold ret, record_call. simpl. eexists. reflexivity. }
      unfold bind at 1. unfold except_same_file. rewrite Hslow.
      unfold ret, st1. simpl. eexists.
      rewrite <- !app_assoc. unfold destination. rewrite Hraw. reflexivity.
Qed.

Lemma raw_substituted_cons image_dir prefix idx p turns :
  raw_substituted image_dir prefix idx (p :: turns)
  = (if is_raw p then destination image_dir prefix idx p else p)
    :: raw_substituted image_dir prefix (S idx) turns.
Proof.
  unfold raw_substituted. rewrite imap_cons. f_equal.
  - unfold destination. rewrite Nat.add_0_r. now destruct (is_raw p).
  - apply imap_ext. intros i x _. simpl. now rewrite Nat.add_succ_r.
Qed.

Lemma destinations_cons image_dir prefix idx p turns :
  destinations image_dir prefix idx (p :: turns)
  = destination image_dir prefix idx p :: destinations image_dir prefix (S idx) turns.
Proof.
  unfold destinations. rewrite imap_cons. f_equal.
  - now rewrite Nat.add_0_r.
  - apply imap_ext. intros i x _. simpl. now rewrite Nat.add_succ_r.
Qed.

Lemma copy_loop_run loc image_dir prefix verbose same turns :
  dependable w ->
  forall done idx acc st,
    store st !! loc = Some (done ++ turns) -> length done = idx ->
    exists events,
      copy_loop w loc image_dir prefix verbose same turns idx acc st
      = (Returned (acc ++ destinations image_dir prefix idx turns),
         mkState (trace st ++ events)
           (<[loc := done ++ raw_substituted image_dir prefix idx turns]> (store st))).
Proof.
  intros Hw. induction turns as [|p turns IH]; intros done idx acc st Hstore Hlen.
  - exists []. simpl. unfold ret. rewrite !app_nil_r.
    rewrite app_nil_r in Hstore. rewrite list_insert_id by assumption.
    now destruct st.
  - simpl.
    destruct (copy_one_run loc image_dir prefix verbose same idx st done p turns
                Hw Hstore Hlen) as [ev1 Hone].
    rewrite (bind_returned _ _ _ _ _ Hone).
    set (p' := if is_raw p then destination image_dir prefix idx p else p).
    set (st1 := mkState _ _).
    assert (store st1 !! loc = Some ((done ++ [p']) ++ turns)) as Hstore1.
    { unfold st1, p'. simpl. rewrite <- app_assoc. simpl. destruct (is_raw p).
      - apply list_lookup_insert_eq. eapply lookup_lt_Some. exact Hstore.
      - exact Hstore. }
    assert (length (done ++ [p']) = S idx) as Hlen1
      by (rewrite length_app; simpl; lia).
    destruct (IH (done ++ [p']) (S idx) (acc ++ [destination image_dir prefix idx p])
                st1 Hstore1 Hlen1) as [ev2 Hloop].
    rewrite Hloop. exists (ev1 ++ ev2).
    rewrite raw_substituted_cons, destinations_cons. fold p'.
    rewrite <- !app_assoc. simpl. f_equal.
    unfold st1. simpl. f_equal.
    + now rewrite <- app_assoc.
    + destruct (is_raw p); [apply list_insert_insert_eq | reflexivity].
Qed.

Lemma for_each_steady {A} (xs : list A) (body : A -> M unit) :
  (forall x, In x xs -> steady (body x)) -> steady (for_each xs body).
Proof.
  induction xs as [|x xs IH]; intros Hbody st.
  - exists tt, []. simpl. unfold ret. rewrite app_nil_r. now destruct st.
  - simpl. destruct (Hbody x (or_introl eq_refl) st) as ([] & ev1 & Hx).
    rewrite (bind_returned _ _ _ _ _ Hx).
    destruct (IH (fun y Hy => Hbody y (or_intror Hy)) (mkState (trace st ++ ev1) (store st)))
      as ([] & ev2 & Hxs).
    rewrite Hxs. exists tt, (ev1 ++ ev2). simpl. now rewrite <- app_assoc.
Qed.

Lemma cleanup_steady loc image_dir D keep (is_dir : bool) st paths :
  store st !! loc = Some paths ->
  exists events,
    (if is_dir && negb (length paths =? 0)%nat && negb keep then
       let! first := list_getitem loc 0 in
       if bool_decide (image_dir <> path_parent first)
       then remove_image_dirs image_dir D
       else ret tt
     else ret tt)%py st
    = (Returned tt, mkState (trace st ++ events) (store st)).
Proof.
  intros Hstore.
  destruct (is_dir && negb (length paths =? 0)%nat && negb keep) eqn:Hc.
  - destruct paths as [|p0 paths].
    { simpl in Hc. now rewrite andb_false_r in Hc. }
    rewrite (bind_returned _ _ _ _ _ (list_getitem_run loc 0 st _ p0 Hstore eq_refl)).
    destruct (bool_decide (image_dir <> path_parent p0)).
    + rewrite remove_image_dirs_run. eexists. reflexivity.
    + exists []. unfold ret. rewrite app_nil_r. now destruct st.
  - exists []. unfold ret. rewrite app_nil_r. now destruct st.
Qed.

Lemma destinations_length image_dir prefix idx paths :
  length (destinations image_dir prefix idx paths) = length paths.
Proof. apply length_imap. Qed.

Lemma raw_substituted_length image_dir prefix idx paths :
  length (raw_substituted image_dir prefix idx paths) = length paths.
Proof. apply length_imap. Qed.

(** The run of [copy_images_list] on a list that is not empty, or image by
    image. *)
Lemma copy_images_list_run
    loc image_dir D prefix border cf verbose keep upscale nn same st paths :
  dependable w -> store st !! loc = Some paths ->
  paths <> [] \/ same = false ->
  exists events,
    copy_images_list w loc image_dir D prefix border cf verbose keep upscale nn same st
    = (Returned (destinations image_dir prefix 0 paths),
       mkState (trace st ++ events)
         (<[loc := raw_substituted image_dir prefix 0 paths]> (store st))).
Proof.
  intros Hw Hstore Hsome. unfold copy_images_list.
  rewrite bind_ask.
  rewrite (bind_returned _ _ _ _ _ (list_contents_run loc st _ Hstore)).
  destruct (cleanup_steady loc image_dir D keep (os_is_dir w (trace st) image_dir)
              st paths Hstore) as [ev0 Hclean].
  rewrite (bind_returned _ _ _ _ _ Hclean).
  set (st0 := mkState (trace st ++ ev0) (store st)).
  rewrite bind_call by (assumption || discriminate).
  set (st1 := record_call (Mkdir image_dir) st0).
  assert (store st1 !! loc = Some paths) as Hstore1 by exact Hstore.
  rewrite (bind_returned _ _ _ _ _ (list_contents_run loc st1 _ Hstore1)).
  destruct (copy_loop_run loc image_dir prefix verbose same paths Hw [] 0%nat [] st1
              Hstore1 eq_refl) as [ev1 Hloop].
  simpl app in Hloop. rewrite (bind_returned _ _ _ _ _ Hloop).
  set (st2 := mkState (trace st1 ++ ev1)
                (<[loc := raw_substituted image_dir prefix 0 paths]> (store st1))).
  rewrite (bind_returned _ _ _ _ _ (for_each_mkdir w _ st2 Hw)).
  set (st3 := mkState _ (store st2)).
  assert (store st3 !! loc = Some (raw_substituted image_dir prefix 0 paths)) as Hstore3.
  { unfold st3, st2. simpl. apply list_lookup_insert_eq.
    eapply lookup_lt_Some. exact Hstore. }
  rewrite (bind_returned _ _ _ _ _ (list_contents_run loc st3 _ Hstore3)).
  rewrite raw_substituted_length.
  match goal with
  | |- context [bind (for_each ?xs ?body) _] =>
      assert (steady (for_each xs body)) as Hframes
  end.
  { apply for_each_steady. intros framenum Hin st'.
    destruct (destinations image_dir prefix 0 paths !! 0%nat) as [first|] eqn:Hfirst.
    - destruct verbose.
      + rewrite bind_emit.
        rewrite (bind_returned _ _ _ _ _ (run_command_run w _ _ _ Hw)).
        unfold ret, record_call. simpl. eexists tt, _.
        rewrite <- app_assoc. reflexivity.
      + rewrite bind_ret.
        rewrite (bind_returned _ _ _ _ _ (run_command_run w _ _ _ Hw)).
        unfold ret, record_call. simpl. eexists tt, _. reflexivity.
    - exfalso. apply lookup_ge_None in Hfirst. rewrite destinations_length in Hfirst.
      destruct Hsome as [Hne | ->].
      + destruct paths; [congruence | simpl in Hfirst; lia].
      + destruct paths; [destruct Hin | simpl in Hfirst; lia]. }
  destruct (Hframes st3) as ([] & ev3 & Hrun).
  rewrite (bind_returned _ _ _ _ _ Hrun).
  assert (exists ev4,
             (if (length paths =? 0)%nat
              then emit (ConsoleLog "[bold red]:skull: No usable images in the data folder.")
              else emit (ConsoleLog ("[bold green]:tada: Done copying images with prefix '"
                                     +:+ prefix +:+ "'.")))
               (mkState (trace st3 ++ ev3) (store st3))
             = (Returned tt, mkState ((trace st3 ++ ev3) ++ ev4) (store st3)))
    as [ev4 Hlog].
  { destruct (length paths =? 0)%nat; eexists; reflexivity. }
  rewrite (bind_returned _ _ _ _ _ Hlog).
  unfold ret, st3, st2, st1, st0, record_call. simpl.
  eexists. f_equal. f_equal. rewrite <- !app_assoc. reflexivity.
Qed.

Lemma call_cases e st :
  call w e st = (Returned tt, record_call e st)
  \/ exists x, call w e st = (Raised x, record_call e st).
Proof.
  unfold call. destruct (call_fails w (trace st) e); eauto.
Qed.

Lemma for_each_mkdir_cases (dirs : list Path) st :
  for_each dirs (fun dir => call w (Mkdir dir)) st
  = (Returned tt, mkState (trace st ++ map Mkdir dirs) (store st))
  \/ exists x created rest,
       dirs = created ++ rest
       /\ for_each dirs (fun dir => call w (Mkdir dir)) st
          = (Raised x, mkState (trace st ++ map Mkdir created) (store st)).
Proof.
  revert st. induction dirs as [|d dirs IH]; intros st.
  - left. simpl. unfold ret. rewrite app_nil_r. now destruct st.
  - simpl. destruct (call_cases (Mkdir d) st) as [Hd | [x Hd]].
    + rewrite (bind_returned _ _ _ _ _ Hd).
      destruct (IH (record_call (Mkdir d) st)) as [-> | (x & created & rest & -> & ->)].
      * left. unfold record_call. simpl. now rewrite <- app_assoc.
      * right. exists x, (d :: created), rest. split; [reflexivity|].
        unfold record_call. simpl. now rewrite <- app_assoc.
    + right. exists x, [d], dirs. split; [reflexivity|].
      now rewrite (bind_raised _ _ _ _ _ Hd).
Qed.

Lemma copy_images_list_empty_run
    loc image_dir D prefix border cf verbose keep upscale nn st :
  store st !! loc = Some [] ->
  copy_images_list w loc image_dir D prefix border cf verbose keep upscale nn true st
  = match for_each (image_dir :: downscale_dirs image_dir D)
            (fun dir => call w (Mkdir dir)) st with
    | (Returned _, st') => (Raised IndexError, st')
    | (Raised e, st') => (Raised e, st')
    | (Exited code, st') => (Exited code, st')
    end.
Proof.
  intros Hstore. unfold copy_images_list.
  rewrite bind_ask.
  rewrite (bind_returned _ _ _ _ _ (list_contents_run loc st _ Hstore)).
  change (negb (length (@nil Path) =? 0)%nat) with false.
  rewrite andb_false_r, andb_false_l, bind_ret.
  simpl for_each.
  destruct (call_cases (Mkdir image_dir) st) as [Hd | [x Hd]].
  - rewrite !(bind_returned _ _ _ _ _ Hd).
    set (st1 := record_call (Mkdir image_dir) st).
    assert (store st1 !! loc = Some []) as Hstore1 by exact Hstore.
    rewrite (bind_returned _ _ _ _ _ (list_contents_run loc st1 _ Hstore1)).
    simpl copy_loop. rewrite bind_ret.
    destruct (for_each_mkdir_cases (downscale_dirs image_dir D) st1)
      as [Hall | (x & created & rest & Hsplit & Hfail)].
    + rewrite (bind_returned _ _ _ _ _ Hall), Hall.
      set (st2 := mkState _ (store st1)).
      assert (store st2 !! loc = Some []) as Hstore2 by exact Hstore.
      rewrite (bind_returned _ _ _ _ _ (list_contents_run loc st2 _ Hstore2)).
      reflexivity.
    + rewrite (bind_raised _ _ _ _ _ Hfail), Hfail. reflexivity.
  - rewrite !(bind_raised _ _ _ _ _ Hd). reflexivity.
Qed.

(** C2. With an empty list of inputs and same_dimensions left at True the
    call should warn and return the empty list. It does not return: after
    the output directories are created (the only calls made) the one turn
    of the downscale loop indexes the empty list of copies and IndexError
    propagates; the warning is never logged. *)
Theorem copy_images_list_empty_raises
    loc image_dir D prefix border cf verbose keep upscale nn st :
  store st !! loc = Some [] ->
  let run :=
    copy_images_list w loc image_dir D prefix border cf verbose keep upscale nn true st in
  let dirs := image_dir :: downscale_dirs image_dir D in
  (exists e created rest,
      dirs = created ++ rest
      /\ run = (Raised e, mkState (trace st ++ map Mkdir created) (store st)))
  /\ (dependable w ->
      run = (Raised IndexError, mkState (trace st ++ map Mkdir dirs) (store st))).
Proof.
  intros Hstore run dirs. unfold run.
  rewrite copy_images_list_empty_run by assumption. fold dirs.
  split.
  - destruct (for_each_mkdir_cases dirs st)
      as [-> | (x & created & rest & Hsplit & ->)].
    + exists IndexError, dirs, []. now rewrite app_nil_r.
    + exists x, created, rest. split; [assumption | reflexivity].
  - intros Hw. now rewrite for_each_mkdir.
Qed.

Lemma raw_substituted_lookup image_dir prefix paths i p :
  paths !! i = Some p ->
  raw_substituted image_dir prefix 0 paths !! i
  = Some (if is_raw p
          then numbered_path image_dir prefix i RAW_CONVERTED_SUFFIX
          else p).
Proof.
  intros Hp. unfold raw_substituted. rewrite list_lookup_imap, Hp. reflexivity.
Qed.

Lemma destinations_lookup image_dir prefix paths i p :
  paths !! i = Some p ->
  destinations image_dir prefix 0 paths !! i = Some (destination image_dir prefix i p).
Proof.
  intros Hp. unfold destinations. rewrite list_lookup_imap, Hp. reflexivity.
Qed.

Lemma list_images_run data st :
  list_images w data st
  = (Returned
       (path_sorted
          (List.filter
             (fun p => str_in (str_lower (path_suffix p))
                         ([".jpg"; ".jpeg"; ".png"; ".tif"; ".tiff"] ++ ALLOWED_RAW_EXTS))
             (os_glob w (trace st) data "**/[!.]*"))), st).
Proof. reflexivity. Qed.

Lemma copy_images_run data image_dir prefix verbose keep cf D same st found :
  dependable w ->
  fst (list_images w data st) = Returned found -> found <> [] ->
  exists events,
    copy_images w data image_dir prefix verbose keep cf D same st
    = (Returned
         (ordered_dict
            (zip (raw_substituted image_dir prefix 0 found)
                 (destinations image_dir prefix 0 found))),
       mkState (trace st ++ events)
         (store st ++ [raw_substituted image_dir prefix 0 found])).
Proof.
  intros Hw Hfound Hne. unfold copy_images.
  assert (list_images w data st = (Returned found, st)) as Hlist.
  { rewrite list_images_run in Hfound |- *. cbn [fst] in Hfound. now rewrite Hfound. }
  rewrite (bind_returned _ _ _ _ _ Hlist).
  unfold bind at 1. unfold list_new at 1.
  set (loc := length (store st)).
  set (st1 := mkState (trace st) (store st ++ [found])).
  assert (store st1 !! loc = Some found) as Hstore1.
  { unfold st1, loc. simpl. apply list_lookup_middle. reflexivity. }
  rewrite (bind_returned _ _ _ _ _ (list_contents_run loc st1 _ Hstore1)).
  destruct found as [|p0 found']; [congruence|].
  change ((length (p0 :: found') =? 0)%nat) with false. cbv iota.
  destruct (copy_images_list_run loc image_dir D prefix None cf verbose keep None false
              same st1 (p0 :: found') Hw Hstore1 (or_introl Hne)) as [events Hrun].
  rewrite (bind_returned _ _ _ _ _ Hrun).
  set (st2 := mkState _ _).
  assert (store st2 !! loc = Some (raw_substituted image_dir prefix 0 (p0 :: found')))
    as Hstore2.
  { unfold st2. simpl. apply list_lookup_insert_eq. eapply lookup_lt_Some. exact Hstore1. }
  rewrite (bind_returned _ _ _ _ _ (list_contents_run loc st2 _ Hstore2)).
  unfold ret, st2, st1, loc. simpl trace. simpl store.
  exists events. f_equal. f_equal.
  rewrite insert_app_r_alt by lia. rewrite Nat.sub_diag. reflexivity.
Qed.

(** C10. The list object passed as image_paths is changed in place: after
    the call each entry with a RAW suffix holds the destination path with
    the converted suffix, every other entry is unchanged; copy_images zips
    that same list, so for a RAW input the key of the returned mapping is
    the substituted path and not the original. *)
Theorem raw_inputs_overwritten_in_place
    loc image_dir D prefix border cf verbose keep upscale nn same st paths :
  dependable w -> store st !! loc = Some paths ->
  let run :=
    copy_images_list w loc image_dir D prefix border cf verbose keep upscale nn same st in
  let mutated := raw_substituted image_dir prefix 0 paths in
  store (snd run) = <[loc := mutated]> (store st)
  /\ length mutated = length paths
  /\ (forall i p,
        paths !! i = Some p ->
        mutated !! i
        = Some (if is_raw p
                then numbered_path image_dir prefix i RAW_CONVERTED_SUFFIX
                else p))
  /\ (forall data st0 found,
        fst (list_images w data st0) = Returned found -> found <> [] ->
        exists mapping,
          fst (copy_images w data image_dir prefix verbose keep cf D same st0)
          = Returned mapping
          /\ mapping
             = ordered_dict
                 (zip (raw_substituted image_dir prefix 0 found)
                      (destinations image_dir prefix 0 found))
          /\ forall i p,
               found !! i = Some p -> is_raw p = true ->
               zip (raw_substituted image_dir prefix 0 found)
                   (destinations image_dir prefix 0 found) !! i
               = Some (numbered_path image_dir prefix i RAW_CONVERTED_SUFFIX,
                       numbered_path image_dir prefix i RAW_CONVERTED_SUFFIX)).
Proof.
  intros Hw Hstore run mutated.
  split; [|split; [apply raw_substituted_length|split]].
  - unfold run, mutated. destruct paths as [|p0 paths']; [destruct same|].
    + rewrite copy_images_list_empty_run by assumption.
      rewrite for_each_mkdir by assumption. simpl.
      symmetry. apply list_insert_id. exact Hstore.
    + destruct (copy_images_list_run loc image_dir D prefix border cf verbose keep
                  upscale nn false st [] Hw Hstore (or_intror eq_refl)) as [ev ->].
      reflexivity.
    + destruct (copy_images_list_run loc image_dir D prefix border cf verbose keep
                  upscale nn same st (p0 :: paths') Hw Hstore
                  (or_introl (not_eq_sym (@nil_cons _ p0 paths')))) as [ev ->].
      reflexivity.
  - intros i p Hp. now apply raw_substituted_lookup.
  - intros data st0 found Hfound Hne.
    destruct (copy_images_run data image_dir prefix verbose keep cf D same st0 found
                Hw Hfound Hne) as [ev Hrun].
    eexists. rewrite Hrun. split; [reflexivity|]. split; [reflexivity|].
    intros i p Hp Hraw.
    apply lookup_zip_with_Some. eexists _, _. split; [reflexivity|]. split.
    + rewrite (raw_substituted_lookup _ _ _ _ _ Hp), Hraw. reflexivity.
    + rewrite (destinations_lookup _ _ _ _ _ Hp). unfold destination.
      rewrite Hraw. reflexivity.
Qed.

(** For a list that is not empty (or when the images are handled one by
    one) the call returns one destination per input, in input order: the
    k-th name is the prefix, k as five digits counted from 1, and the
    suffix of the input, or the converted suffix for a RAW input. *)
Lemma copy_images_list_returns_destinations
    loc image_dir D prefix border cf verbose keep upscale nn same st paths :
  dependable w -> store st !! loc = Some paths ->
  paths <> [] \/ same = false ->
  exists copied,
    fst (copy_images_list w loc image_dir D prefix border cf verbose keep upscale nn
           same st) = Returned copied
    /\ length copied = length paths
    /\ forall k p,
         paths !! k = Some p ->
         copied !! k
         = Some (path_join image_dir
                   (prefix +:+ fmt_05d (k + 1)
                    +:+ (if is_raw p then RAW_CONVERTED_SUFFIX else path_suffix p))).
Proof.
  intros Hw Hstore Hsome.
  destruct (copy_images_list_run loc image_dir D prefix border cf verbose keep upscale nn
              same st paths Hw Hstore Hsome) as [events Hrun].
  eexists. rewrite Hrun. split; [reflexivity|].
  split; [apply destinations_length|].
  intros k p Hp. rewrite (destinations_lookup _ _ _ _ _ Hp).
  unfold destination, numbered_path. now destruct (is_raw p).
Qed.

End CopyFacts.


(** ** The properties on the sample environment *)

Lemma sample_world_dependable : dependable sample_world.
Proof. intros tr e. left. reflexivity. Qed.

Lemma empty_video_world_dependable : dependable empty_video_world.
Proof. intros tr e. left. reflexivity. Qed.

Lemma no_crop_all_in_unit : all_in_unit no_crop.
Proof. unfold all_in_unit, no_crop. simpl. repeat constructor; discriminate. Qed.

Lemma sample_video_is_file : video_is_file sample_world "clip.mp4".
Proof. split; intros tr; reflexivity. Qed.

Lemma sample_video_frames : probed_frames sample_world "clip.mp4" 120.
Proof. intros tr. exists "120", "120". repeat split; reflexivity. Qed.

Lemma empty_video_frames : probed_frames empty_video_world "clip.mp4" 0.
Proof. intros tr. exists "0", "0". repeat split; reflexivity. Qed.

Lemma removal_precedes_fatal_exits_witness :
  convert_video_to_images empty_video_world "clip.mp4" "out/images" 30 1 no_crop
    false "frame_" false None fresh_state
  = (Exited 1,
     mkState
       [Rmtree "out/images"; Rmtree "out/images_2"; Mkdir (posix "out/images");
        RunCommand (ffprobe_cmd (posix "clip.mp4"));
        ConsolePrint ["[bold red]Error: Video has no frames: clip.mp4"]]
       [[]]).
Proof.
  destruct (removal_precedes_fatal_exits empty_video_world "clip.mp4" "out/images" 30 1
              no_crop false "frame_" None fresh_state)
    as (_ & _ & _ & _ & _ & Hframes).
  rewrite Hframes.
  - reflexivity.
  - exact empty_video_world_dependable.
  - exact no_crop_all_in_unit.
  - reflexivity.
  - reflexivity.
  - exact empty_video_frames.
Defined.


Lemma copy_images_list_empty_raises_witness :
  copy_images_list sample_world 0 "out/images" 1 "frame_" None no_crop
    false false None false true fresh_state
  = (Raised IndexError,
     mkState [Mkdir (posix "out/images"); Mkdir (posix "out/images"); Mkdir (posix "out/images_2")] [[]]).
Proof.
  apply (copy_images_list_empty_raises sample_world 0 "out/images" 1 "frame_" None
           no_crop false false None false fresh_state).
  - reflexivity.
  - exact sample_world_dependable.
Defined.

(** C4. One destination per input is what the call returns for a list that
    is not empty ([copy_images_list_returns_destinations]); for no input at
    all and same_dimensions left at True it raises IndexError where the
    empty list was to be returned, as it does image by image. *)
Example copy_images_list_no_inputs_example :
  fst (copy_images_list sample_world 0 "out/images" 0 "frame_" None no_crop
         false true None false true fresh_state)
  = Raised IndexError
  /\ fst (copy_images_list sample_world 0 "out/images" 0 "frame_" None no_crop
            false true None false false fresh_state)
     = Returned [].
Proof. split; reflexivity. Qed.

Lemma raw_inputs_overwritten_in_place_witness :
  store (snd (copy_images_list sample_world 0 "out/images" 0 "frame_" None no_crop
                false false None false true
                (mkState [] [[posix "in/b.CR2"; posix "in/a.png"]])))
  = [[posix "out/images/frame_00001.jpg"; posix "in/a.png"]].
Proof.
  destruct (raw_inputs_overwritten_in_place sample_world 0 "out/images" 0 "frame_" None
              no_crop false false None false true
              (mkState [] [[posix "in/b.CR2"; posix "in/a.png"]]) ["in/b.CR2"; "in/a.png"]
              sample_world_dependable eq_refl)
    as (Hstore & _).
  rewrite Hstore. reflexivity.
Defined.


(** ** Further properties of the resolver *)

Lemma hloc_feature_stable f : hloc_feature (hloc_feature f) = hloc_feature f.
Proof.
  unfold hloc_feature.
  destruct (String.eqb f "any" || String.eqb f "superpoint") eqn:Hf.
  - reflexivity.
  - now rewrite Hf.
Qed.

Lemma hloc_matcher_stable m : hloc_matcher (hloc_matcher m) = hloc_matcher m.
Proof.
  unfold hloc_matcher.
  destruct (String.eqb m "any") eqn:Hany; [reflexivity|].
  destruct (String.eqb m "NN") eqn:Hnn; [reflexivity|].
  now rewrite Hany, Hnn.
Qed.

Lemma resolve_cases s f m :
  find_tool_feature_matcher_combination s f m = (None, None, None)
  \/ find_tool_feature_matcher_combination s f m = (Some "colmap", Some "sift", Some "NN")
  \/ find_tool_feature_matcher_combination s f m
     = (Some "hloc", Some (hloc_feature f), Some (hloc_matcher m)).
Proof.
  destruct (String.eqb s "any") eqn:Hany.
  - apply String.eqb_eq in Hany. subst s. rewrite resolve_any.
    destruct (colmap_compatible f m) eqn:Hc.
    + rewrite resolve_colmap. unfold colmap_path. rewrite Hc. tauto.
    + rewrite resolve_hloc. tauto.
  - destruct (String.eqb s "colmap") eqn:Hcol.
    + apply String.eqb_eq in Hcol. subst s. rewrite resolve_colmap.
      unfold colmap_path. destruct (colmap_compatible f m); tauto.
    + destruct (String.eqb s "hloc") eqn:Hh.
      * apply String.eqb_eq in Hh. subst s. rewrite resolve_hloc. tauto.
      * left. apply resolve_other. simpl. intros [<- | [<- | [<- | []]]]; discriminate.
Qed.

(** X1. Resolving is idempotent: a resolved triple, given back as the
    request, resolves to itself. No component of a resolved triple is the
    wildcard, and a tool that was named in the request is the tool of the
    result. *)
Theorem resolver_idempotent s f m t f' m' :
  find_tool_feature_matcher_combination s f m = (Some t, Some f', Some m') ->
  find_tool_feature_matcher_combination t f' m' = (Some t, Some f', Some m')
  /\ t <> "any" /\ f' <> "any" /\ m' <> "any"
  /\ (s <> "any" -> t = s).
Proof.
  intros Hres.
  destruct (resolve_cases s f m) as [Hn | [Hc | Hh]].
  - rewrite Hres in Hn. discriminate.
  - rewrite Hres in Hc. inversion Hc; subst; clear Hc. repeat split; try discriminate.
    intros Hs. revert Hres. unfold find_tool_feature_matcher_combination.
    apply String.eqb_neq in Hs. rewrite Hs.
    destruct (String.eqb s "colmap") eqn:Hcol.
    + apply String.eqb_eq in Hcol. now subst.
    + destruct (String.eqb s "hloc"); intros Hres; [|discriminate].
      inversion Hres; subst. discriminate.
  - rewrite Hres in Hh. inversion Hh; subst; clear Hh. split; [|split; [|split; [|split]]].
    + rewrite resolve_hloc. unfold hloc_path.
      now rewrite hloc_feature_stable, hloc_matcher_stable.
    + discriminate.
    + unfold hloc_feature.
      destruct (String.eqb f "any" || String.eqb f "superpoint") eqn:Hf; [discriminate|].
      apply orb_false_iff in Hf as [Hf _]. now apply String.eqb_neq.
    + unfold hloc_matcher.
      destruct (String.eqb m "any") eqn:Hm; [discriminate|].
      destruct (String.eqb m "NN"); [discriminate|]. now apply String.eqb_neq.
    + intros Hs. revert Hres. unfold find_tool_feature_matcher_combination.
      apply String.eqb_neq in Hs. rewrite Hs.
      destruct (String.eqb s "colmap") eqn:Hcol.
      * destruct (_ || _); discriminate.
      * destruct (String.eqb s "hloc") eqn:Hh; [|discriminate].
        apply String.eqb_eq in Hh. now subst.
Qed.

(** X2. The all-null triple is returned in two cases only: the tool colmap
    with a feature other than any and sift or a matcher other than any and
    NN, and a tool that is none of any, colmap and hloc. The wildcard tool
    and hloc resolve for every feature and matcher, known or not. *)
Theorem null_only_for_colmap_mismatch s f m :
  find_tool_feature_matcher_combination s f m = (None, None, None)
  <-> (s = "colmap" /\ colmap_compatible f m = false) \/ ~ In s sfm_tools.
Proof.
  split.
  - intros Hnull.
    destruct (String.eqb s "any") eqn:Hany.
    { apply String.eqb_eq in Hany. subst s. exfalso. revert Hnull.
      rewrite resolve_any. destruct (colmap_compatible f m) eqn:Hc.
      - rewrite resolve_colmap. unfold colmap_path. now rewrite Hc.
      - now rewrite resolve_hloc. }
    destruct (String.eqb s "colmap") eqn:Hcol.
    { apply String.eqb_eq in Hcol. subst s. left. split; [reflexivity|].
      revert Hnull. rewrite resolve_colmap. unfold colmap_path.
      now destruct (colmap_compatible f m). }
    destruct (String.eqb s "hloc") eqn:Hh.
    { apply String.eqb_eq in Hh. subst s. now rewrite resolve_hloc in Hnull. }
    right. simpl. intros [<- | [<- | [<- | []]]]; discriminate.
  - intros [[-> Hc] | Hs].
    + rewrite resolve_colmap. unfold colmap_path. now rewrite Hc.
    + now apply resolve_other.
Qed.


(** ** Decimal numerals *)


Lemma fold_digits_of_uint d acc :
  fold_left digit_step (list_ascii_of_string (NilEmpty.string_of_uint d)) acc
  = Nat.of_uint_acc d acc.
Proof.
  revert acc. induction d; intros acc; simpl; [reflexivity | ..];
    rewrite IHd, Nat.tail_mul_spec; unfold digit_step; f_equal; simpl; lia.
Qed.

Lemma int_of_digits_of_uint d :
  int_of_digits (NilZero.string_of_uint d) = Nat.of_uint d.
Proof.
  unfold int_of_digits. change (fun acc c => (10 * acc + (nat_of_ascii c - 48))%nat)
    with digit_step.
  destruct d; try apply fold_digits_of_uint. reflexivity.
Qed.

Lemma int_of_digits_str_of_nat n : int_of_digits (str_of_nat n) = n.
Proof.
  unfold str_of_nat. rewrite int_of_digits_of_uint. apply Unsigned.of_to.
Qed.

Lemma digits_only_of_uint d : digits_only (NilEmpty.string_of_uint d).
Proof.
  unfold digits_only. induction d; simpl; constructor; (reflexivity || assumption).
Qed.

Lemma digits_only_str_of_nat n : digits_only (str_of_nat n).
Proof.
  unfold str_of_nat, NilZero.string_of_uint.
  destruct (Nat.to_uint n); try apply digits_only_of_uint.
  repeat constructor.
Qed.

Lemma str_of_nat_nonempty n : str_of_nat n <> EmptyString.
Proof.
  unfold str_of_nat, NilZero.string_of_uint.
  destruct (Nat.to_uint n); simpl; discriminate.
Qed.

Lemma span_digits_app d rest :
  digits_only d -> starts_without_digit rest ->
  span_digits (d +:+ rest) = (d, rest).
Proof.
  unfold digits_only. induction d as [|c d IH]; simpl; intros Hd Hrest.
  - destruct rest as [|c rest]; [reflexivity|]. simpl in *. now rewrite Hrest.
  - apply Forall_cons in Hd as [Hc Hd]. rewrite Hc, IH by assumption. reflexivity.
Qed.

Lemma re_search_digits_finds pre d rest :
  digit_free pre -> digits_only d -> d <> EmptyString -> starts_without_digit rest ->
  re_search_digits (pre +:+ d +:+ rest) = Some d.
Proof.
  unfold digit_free. induction pre as [|c pre IH]; simpl; intros Hpre Hd Hne Hrest.
  - destruct d as [|c d]; [congruence|]. simpl.
    pose proof Hd as Hd'. apply Forall_cons in Hd' as [Hc Hd'].
    rewrite Hc.
    change (String c (d +:+ rest)) with (String c d +:+ rest).
    now rewrite span_digits_app.
  - apply Forall_cons in Hpre as [Hc Hpre]. rewrite Hc. now apply IH.
Qed.

Lemma re_search_digits_none s : digit_free s -> re_search_digits s = None.
Proof.
  unfold digit_free. induction s as [|c s IH]; simpl; intros Hs; [reflexivity|].
  apply Forall_cons in Hs as [Hc Hs]. rewrite Hc. now apply IH.
Qed.

(** zero padding *)
Lemma concat_zeros k : String.concat "" (repeat "0" k) = string_of_list_ascii (repeat "0"%char k).
Proof.
  induction k as [|k IH]; [reflexivity|].
  simpl repeat. destruct k; [reflexivity|].
  simpl in *. now rewrite IH.
Qed.







Lemma string_length_app a b : String.length (a +:+ b) = (String.length a + String.length b)%nat.
Proof. induction a as [|c a IH]; simpl; [reflexivity | now rewrite IH]. Qed.

Lemma string_length_list l : String.length (string_of_list_ascii l) = length l.
Proof. induction l as [|c l IH]; simpl; [reflexivity | now rewrite IH]. Qed.

Lemma fmt_05d_length n :
  String.length (fmt_05d n) = Nat.max 5 (String.length (str_of_nat n)).
Proof.
  unfold fmt_05d, zfill. rewrite string_length_app, concat_zeros, string_length_list.
  rewrite repeat_length. lia.
Qed.



Section Destinations.
Context {PL : PathLib}.


End Destinations.




(** ** Counting the frames of a video *)

Section ProbeFacts.
Context {PL : PathLib} (w : World).

Lemma get_num_frames_in_video_cases video st :
  let cmd := ffprobe_cmd video in
  let st' := record_call (RunCommand cmd) st in
  get_num_frames_in_video w video st
  = match call_fails w (trace st) (RunCommand cmd) with
    | Some x => (Raised x, st')
    | None =>
        match command_stdout w (trace st') cmd with
        | None => (Raised AssertionError, st')
        | Some out =>
            match re_search_digits out with
            | None => (Raised AssertionError, st')
            | Some number_match => (Returned (int_of_digits number_match), st')
            end
        end
    end.
Proof.
  intros cmd st'. unfold get_num_frames_in_video, run_command, bind, call, ask.
  fold cmd. destruct (call_fails w (trace st) (RunCommand cmd)); [reflexivity|].
  fold st'. destruct (command_stdout w (trace st') cmd) as [out|]; [|reflexivity].
  destruct (re_search_digits out); reflexivity.
Qed.

Lemma get_num_frames_unreadable video st :
  dependable w -> unreadable_count w video ->
  get_num_frames_in_video w video st
  = (Raised AssertionError, record_call (RunCommand (ffprobe_cmd video)) st).
Proof.
  intros Hw Hun. rewrite get_num_frames_in_video_cases.
  destruct (Hw (trace st) (RunCommand (ffprobe_cmd video))) as [-> | [_ (? & ? & ?)]];
    [|discriminate].
  destruct (Hun (trace (record_call (RunCommand (ffprobe_cmd video)) st)))
    as [-> | (out & -> & Hfree)]; [reflexivity|].
  now rewrite re_search_digits_none.
Qed.

(** X4. The frame count is the first decimal number of the output of the
    inspection command: for an output made of text without digits, the
    decimal writing of n and a rest that does not start with a digit, the
    call returns n, after that one command. *)
Theorem get_num_frames_reads_first_number video st pre n post :
  call_fails w (trace st) (RunCommand (ffprobe_cmd video)) = None ->
  command_stdout w (trace st ++ [RunCommand (ffprobe_cmd video)]) (ffprobe_cmd video)
  = Some (pre +:+ str_of_nat n +:+ post) ->
  digit_free pre -> starts_without_digit post ->
  get_num_frames_in_video w video st
  = (Returned n, record_call (RunCommand (ffprobe_cmd video)) st).
Proof.
  intros Hcall Hout Hpre Hpost. rewrite get_num_frames_in_video_cases.
  rewrite Hcall. unfold record_call at 1. simpl trace. rewrite Hout.
  rewrite re_search_digits_finds
    by (assumption || apply digits_only_str_of_nat || apply str_of_nat_nonempty).
  now rewrite int_of_digits_str_of_nat.
Qed.

(** X5. A frame count that cannot be read is an assertion failure, not a
    result: when the inspection command gives no output, or an output
    without any digit, AssertionError is raised after the command; an
    exception of the command itself propagates unchanged. Nothing else is
    called, and the store is left as it was. *)
Theorem get_num_frames_failures video st :
  let cmd := ffprobe_cmd video in
  let st' := record_call (RunCommand cmd) st in
  (forall x, call_fails w (trace st) (RunCommand cmd) = Some x ->
     get_num_frames_in_video w video st = (Raised x, st'))
  /\ (call_fails w (trace st) (RunCommand cmd) = None ->
      command_stdout w (trace st') cmd = None ->
      get_num_frames_in_video w video st = (Raised AssertionError, st'))
  /\ (forall out,
        call_fails w (trace st) (RunCommand cmd) = None ->
        command_stdout w (trace st') cmd = Some out -> digit_free out ->
        get_num_frames_in_video w video st = (Raised AssertionError, st')).
Proof.
  intros cmd st'. repeat split.
  - intros x Hx. rewrite get_num_frames_in_video_cases. fold cmd. now rewrite Hx.
  - intros Hcall Hout. rewrite get_num_frames_in_video_cases. fold cmd st'.
    now rewrite Hcall, Hout.
  - intros out Hcall Hout Hfree. rewrite get_num_frames_in_video_cases. fold cmd st'.
    now rewrite Hcall, Hout, re_search_digits_none.
Qed.

End ProbeFacts.


(** ** The outcomes of mask generation *)


Section MaskOutcomes.
Context {PL : PathLib} (w : World).

Lemma all_zero_dec cf : all_zero cf \/ ~ all_zero cf.
Proof.
  destruct (forallb (fun x => Qeq_bool x 0) (crop_list cf)) eqn:Hz.
  - left. now apply all_zero_b.
  - right. intros H. apply all_zero_b in H. congruence.
Qed.

(** X6. The outcome of generate_mask in every case. A crop fraction outside
    [0,1] ends the process with the crop message, whatever the radius: the
    crop is checked first and the radius message is not logged. With crop
    fractions in range, a radius that is not positive ends the process with
    the radius message. Otherwise the call returns and logs nothing, and it
    returns no mask exactly when the crop is all zero and the radius is at
    least 1. *)
Theorem generate_mask_outcomes h wd crop_factor r st :
  (some_outside_unit crop_factor ->
   generate_mask w h wd crop_factor r st
   = (Exited 1, record_call (ConsoleLog crop_error) st))
  /\ (all_in_unit crop_factor -> (r <= 0)%Q ->
      generate_mask w h wd crop_factor r st
      = (Exited 1, record_call (ConsoleLog radius_error) st))
  /\ (all_in_unit crop_factor -> (0 < r)%Q ->
      exists m,
        generate_mask w h wd crop_factor r st = (Returned m, st)
        /\ (m = None <-> all_zero crop_factor /\ (1 <= r)%Q)).
Proof.
  split; [|split].
  - intros Hout. unfold generate_mask.
    apply bind_exited. now apply generate_crop_mask_fatal.
  - intros Hin Hr. unfold generate_mask.
    destruct (all_zero_dec crop_factor) as [Hz | Hnz].
    + rewrite (bind_returned _ _ _ _ _ (generate_crop_mask_none h wd _ st Hz)).
      apply bind_exited. now apply generate_circle_mask_fatal.
    + destruct crop_factor as [[[top bottom] left_] right_].
      rewrite (bind_returned _ _ _ _ _ (generate_crop_mask_some h wd _ _ _ _ st Hnz Hin)).
      apply bind_exited. now apply generate_circle_mask_fatal.
  - intros Hin Hr. unfold generate_mask.
    destruct (all_zero_dec crop_factor) as [Hz | Hnz];
      [|destruct crop_factor as [[[top bottom] left_] right_]].
    all: destruct (Qlt_le_dec r 1) as [H1 | H1].
    + rewrite (bind_returned _ _ _ _ _ (generate_crop_mask_none h wd _ st Hz)).
      rewrite (bind_returned _ _ _ _ _ (generate_circle_mask_some w h wd r st Hr H1)).
      eexists. split; [reflexivity|]. split; [discriminate|]. intros [_ Hge]. lra.
    + rewrite (bind_returned _ _ _ _ _ (generate_crop_mask_none h wd _ st Hz)).
      rewrite (bind_returned _ _ _ _ _ (generate_circle_mask_none w h wd r st H1)).
      eexists. split; [reflexivity|]. split; [now split | reflexivity].
    + rewrite (bind_returned _ _ _ _ _ (generate_crop_mask_some h wd _ _ _ _ st Hnz Hin)).
      rewrite (bind_returned _ _ _ _ _ (generate_circle_mask_some w h wd r st Hr H1)).
      eexists. split; [reflexivity|]. split; [discriminate|]. intros [Hz _]. contradiction.
    + rewrite (bind_returned _ _ _ _ _ (generate_crop_mask_some h wd _ _ _ _ st Hnz Hin)).
      rewrite (bind_returned _ _ _ _ _ (generate_circle_mask_none w h wd r st H1)).
      eexists. split; [reflexivity|]. split; [discriminate|]. intros [Hz _]. contradiction.
Qed.


End MaskOutcomes.


(** ** What a run adds to the trace *)

Section TraceFacts.
Context {PL : PathLib} (w : World) (P : Event -> Prop).

Lemma only_adds_nothing {A} (c : M A) :
  (forall st, trace (snd (c st)) = trace st) -> only_adds P c.
Proof.
  intros Hc st. exists []. rewrite app_nil_r. split; [apply Hc | constructor].
Qed.

Lemma only_adds_ret {A} (a : A) : only_adds P (ret a).
Proof. now apply only_adds_nothing. Qed.

Lemma only_adds_raise {A} e : only_adds P (@raise PL A e).
Proof. now apply only_adds_nothing. Qed.

Lemma only_adds_sys_exit {A} code : only_adds P (@sys_exit PL A code).
Proof. now apply only_adds_nothing. Qed.

Lemma only_adds_ask {A} (q : list Event -> A) : only_adds P (ask q).
Proof. now apply only_adds_nothing. Qed.

Lemma only_adds_list_new l : only_adds P (list_new l).
Proof. now apply only_adds_nothing. Qed.

Lemma only_adds_list_contents loc : only_adds P (list_contents loc).
Proof. now apply only_adds_nothing. Qed.

Lemma only_adds_list_getitem loc idx : only_adds P (list_getitem loc idx).
Proof.
  apply only_adds_nothing. intros st. unfold list_getitem.
  now destruct (default [] (store st !! loc) !! idx).
Qed.

Lemma only_adds_list_setitem loc idx p : only_adds P (list_setitem loc idx p).
Proof.
  apply only_adds_nothing. intros st. unfold list_setitem. cbv zeta.
  now destruct (idx <? length (default [] (store st !! loc)))%nat.
Qed.

Lemma only_adds_emit e : P e -> only_adds P (emit e).
Proof. intros He st. exists [e]. split; [reflexivity | now constructor]. Qed.

Lemma only_adds_call e : P e -> only_adds P (call w e).
Proof.
  intros He st. exists [e]. split; [|now constructor].
  unfold call. now destruct (call_fails w (trace st) e).
Qed.

Lemma only_adds_bind {A B} (c : M A) (k : A -> M B) :
  only_adds P c -> (forall a, only_adds P (k a)) -> only_adds P (bind c k).
Proof.
  intros Hc Hk st. destruct (Hc st) as (ev1 & Htr1 & Hev1). unfold bind.
  destruct (c st) as [[a | e | code] st1]; simpl in Htr1.
  - destruct (Hk a st1) as (ev2 & Htr2 & Hev2). exists (ev1 ++ ev2).
    rewrite Htr2, Htr1, app_assoc. split; [reflexivity | now apply Forall_app].
  - now exists ev1.
  - now exists ev1.
Qed.

Lemma only_adds_for_each {A} (xs : list A) (body : A -> M unit) :
  (forall x, In x xs -> only_adds P (body x)) -> only_adds P (for_each xs body).
Proof.
  induction xs as [|x xs IH]; intros Hbody; simpl.
  - apply only_adds_ret.
  - apply only_adds_bind; [apply Hbody; now left|].
    intros _. apply IH. intros y Hy. apply Hbody. now right.
Qed.

Lemma only_adds_except (c : M unit) : only_adds P c -> only_adds P (except_same_file c).
Proof.
  intros Hc st. destruct (Hc st) as (ev & Htr & Hev). exists ev. split; [|assumption].
  unfold except_same_file. destruct (c st) as [[a | e | code] st1]; try assumption.
  now destruct e.
Qed.

Lemma only_adds_run_command cmd verbose :
  P (RunCommand cmd) -> only_adds P (run_command w cmd verbose).
Proof.
  intros Hcmd. unfold run_command. apply only_adds_bind.
  - now apply only_adds_call.
  - intros _. apply only_adds_ask.
Qed.

Lemma only_adds_list_images data : only_adds P (list_images w data).
Proof. now apply only_adds_nothing. Qed.

Lemma only_adds_get_num_frames_in_video video :
  P (RunCommand (ffprobe_cmd video)) -> only_adds P (get_num_frames_in_video w video).
Proof.
  intros Hcmd. unfold get_num_frames_in_video. cbv zeta. apply only_adds_bind.
  - now apply only_adds_run_command.
  - intros [out|]; [|apply only_adds_raise].
    destruct (re_search_digits out); [apply only_adds_ret | apply only_adds_raise].
Qed.

End TraceFacts.

(** The steps of a proof that a computation adds no removal. *)
Ltac adds_step :=
  match goal with
  | |- only_adds _ (bind _ _) => apply only_adds_bind; [|intros ?]
  | |- only_adds _ (ret _) => apply only_adds_ret
  | |- only_adds _ (raise _) => apply only_adds_raise
  | |- only_adds _ (sys_exit _) => apply only_adds_sys_exit
  | |- only_adds _ (ask _) => apply only_adds_ask
  | |- only_adds _ (list_new _) => apply only_adds_list_new
  | |- only_adds _ (list_contents _) => apply only_adds_list_contents
  | |- only_adds _ (list_getitem _ _) => apply only_adds_list_getitem
  | |- only_adds _ (list_setitem _ _ _) => apply only_adds_list_setitem
  | |- only_adds _ (emit _) => apply only_adds_emit; reflexivity
  | |- only_adds _ (call _ _) => apply only_adds_call; reflexivity
  | |- only_adds _ (run_command _ _ _) => apply only_adds_run_command; reflexivity
  | |- only_adds _ (list_images _ _) => apply only_adds_list_images
  | |- only_adds _ (get_num_frames_in_video _ _) =>
      apply only_adds_get_num_frames_in_video; reflexivity
  | |- only_adds _ (except_same_file _) => apply only_adds_except
  | |- only_adds _ (for_each _ _) => apply only_adds_for_each; intros ? _
  | |- only_adds _ (if ?b then _ else _) => destruct b
  | |- only_adds _ (match ?x with Some _ => _ | None => _ end) => destruct x
  | |- only_adds _ (match ?x with (_, _) => _ end) => destruct x
  | |- only_adds _ (match ?x with [] => _ | _ :: _ => _ end) => destruct x
  end.

Section RemovalFacts.
Context {PL : PathLib} (w : World).

Lemma copy_one_no_removal loc image_dir prefix verbose same idx :
  only_adds not_rmtree (copy_one w loc image_dir prefix verbose same idx).
Proof. unfold copy_one. repeat adds_step. Qed.

Lemma copy_loop_no_removal loc image_dir prefix verbose same turns :
  forall idx acc,
    only_adds not_rmtree (copy_loop w loc image_dir prefix verbose same turns idx acc).
Proof.
  induction turns as [|p turns IH]; intros idx acc; simpl.
  - apply only_adds_ret.
  - apply only_adds_bind; [apply copy_one_no_removal | intros dst; apply IH].
Qed.

Lemma convert_video_kept_no_removal video_path image_dir target D cf verbose prefix seed :
  only_adds not_rmtree
    (convert_video_to_images w video_path image_dir target D cf verbose prefix true seed).
Proof. unfold convert_video_to_images. cbv zeta. simpl negb. repeat adds_step. Qed.

End RemovalFacts.

Section RemovalTheorems.
Context {PL : PathLib} (w : World).

Lemma cleanup_run loc image_dir D keep st :
  (if os_is_dir w (trace st) image_dir
      && negb (length (default [] (store st !! loc)) =? 0)%nat && negb keep
   then bind (list_getitem loc 0)
          (fun first =>
             if bool_decide (image_dir <> path_parent first)
             then remove_image_dirs image_dir D
             else ret tt)
   else ret tt) st
  = (Returned tt,
     mkState (trace st ++ (if removes_image_dirs w st loc image_dir keep
                           then removals image_dir D else []))
       (store st)).
Proof.
  unfold removes_image_dirs.
  assert (forall s : State, (Returned tt, s) = (Returned tt, mkState (trace s ++ []) (store s)))
    as Hnil by (intros [tr sto]; simpl; now rewrite app_nil_r).
  destruct (default [] (store st !! loc)) as [|first rest] eqn:Hl.
  - simpl. rewrite andb_false_r. simpl. apply Hnil.
  - simpl length. change (negb (S (length rest) =? 0)%nat) with true.
    rewrite andb_true_r.
    destruct (os_is_dir w (trace st) image_dir && negb keep) eqn:Hc.
    + unfold bind, list_getitem. rewrite Hl. simpl.
      destruct (bool_decide (image_dir <> path_parent first)).
      * apply remove_image_dirs_run.
      * apply Hnil.
    + apply Hnil.
Qed.

(** X8. copy_images_list removes directories only at its start: the first
    calls are the removals of image_dir and of its downscaled versions when
    image_dir is a directory, the list holds an input, keep_image_dir is off
    and image_dir is not the directory of the first input, and none
    otherwise; then image_dir is created, and no call made after that is a
    removal, in any environment and however the run ends. *)
Theorem copy_images_list_removes_only_at_start
    loc image_dir D prefix border cf verbose keep upscale nn same st :
  exists later,
    trace (snd (copy_images_list w loc image_dir D prefix border cf verbose keep upscale
                  nn same st))
    = trace st
      ++ (if removes_image_dirs w st loc image_dir keep then removals image_dir D else [])
      ++ Mkdir image_dir :: later
    /\ Forall not_rmtree later.
Proof.
  unfold copy_images_list. rewrite bind_ask. unfold bind at 1. unfold list_contents at 1.
  rewrite (bind_returned _ _ _ _ _ (cleanup_run loc image_dir D keep st)).
  set (st0 := mkState _ (store st)).
  match goal with
  | |- context [bind (call w (Mkdir image_dir)) ?k] =>
      assert (forall u, only_adds not_rmtree (k u)) as Hrest
  end.
  { intros u. cbv zeta. apply only_adds_bind; [apply only_adds_list_contents|].
    intros turns. apply only_adds_bind; [apply copy_loop_no_removal|].
    intros copied. repeat adds_step. }
  unfold bind at 1.
  destruct (call_cases w (Mkdir image_dir) st0) as [Hd | [x Hd]]; rewrite Hd.
  - destruct (Hrest tt (record_call (Mkdir image_dir) st0)) as (later & Htr & Hlater).
    exists later. split; [|assumption]. rewrite Htr. unfold st0. simpl.
    now rewrite <- !app_assoc.
  - exists []. split; [|constructor]. unfold st0. simpl. now rewrite <- !app_assoc.
Qed.

(** X9. convert_video_to_images removes directories only at its start: the
    first calls are the removals of image_dir and of its downscaled versions
    unless keep_image_dir is set, and no later call is a removal, in any
    environment, for any arguments and however the run ends. *)
Theorem convert_video_removes_only_at_start
    video_path image_dir target D cf verbose prefix keep seed st :
  exists later,
    trace (snd (convert_video_to_images w video_path image_dir target D cf verbose prefix
                  keep seed st))
    = trace st ++ (if keep then [] else removals image_dir D) ++ later
    /\ Forall not_rmtree later.
Proof.
  destruct keep.
  - apply (convert_video_kept_no_removal w).
  - rewrite removal_comes_first.
    destruct (convert_video_kept_no_removal w video_path image_dir target D cf verbose
                prefix seed (mkState (trace st ++ removals image_dir D) (store st)))
      as (later & Htr & Hlater).
    exists later. split; [|assumption]. rewrite Htr. simpl. now rewrite <- app_assoc.
Qed.

End RemovalTheorems.


(** ** The calls of a copy, in order *)

Section CopyTrace.
Context {PL : PathLib} (w : World).

Lemma state_eta (st : State) : st = mkState (trace st ++ []) (store st).
Proof. destruct st. simpl. now rewrite app_nil_r. Qed.

Lemma copy_one_trace loc image_dir prefix verbose same idx st done p turns :
  dependable w ->
  store st !! loc = Some (done ++ p :: turns) -> length done = idx ->
  copy_one w loc image_dir prefix verbose same idx st
  = (Returned (destination image_dir prefix idx p),
     mkState (trace st
              ++ copy_one_events (length (done ++ p :: turns)) image_dir prefix verbose
                   same idx p)
       (if is_raw p
        then <[loc := done ++ destination image_dir prefix idx p :: turns]> (store st)
        else store st)).
Proof.
  intros Hw Hstore Hlen. unfold copy_one, copy_one_events.
  assert ((done ++ p :: turns) !! idx = Some p) as Hp
    by (subst idx; apply list_lookup_middle; reflexivity).
  rewrite (bind_returned _ _ _ _ _ (list_getitem_run loc idx st _ p Hstore Hp)).
  set (n := length (done ++ p :: turns)).
  set (ev := if verbose
             then [ConsoleLog ("Copying image " +:+ str_of_nat (idx + 1) +:+ " of "
                               +:+ str_of_nat n +:+ "...")]
             else []).
  match goal with |- context [bind (if verbose then ?a else ?b) _] =>
    assert ((if verbose then a else b) st
            = (Returned tt, mkState (trace st ++ ev) (store st))) as Hlog
  end.
  { unfold ev. destruct verbose.
    - rewrite (bind_returned _ _ _ _ _ (list_contents_run loc st _ Hstore)). reflexivity.
    - apply f_equal, state_eta. }
  rewrite (bind_returned _ _ _ _ _ Hlog). clear Hlog.
  set (st1 := mkState (trace st ++ ev) (store st)).
  cbv zeta. destruct (is_raw p) eqn:Hraw.
  - unfold bind at 1. unfold except_same_file.
    rewrite bind_call by (assumption || discriminate).
    rewrite bind_call by (assumption || discriminate).
    erewrite list_setitem_run; [| exact Hstore | rewrite length_app; simpl; lia].
    unfold ret, record_call, st1. simpl.
    rewrite <- !app_assoc. f_equal. f_equal.
    f_equal. subst idx. rewrite insert_app_r_alt by lia.
    now rewrite Nat.sub_diag.
  - destruct same.
    + unfold bind at 1. rewrite shutil_copy_run by assumption.
      unfold ret, record_call, st1. simpl. now rewrite <- !app_assoc.
    + unfold bind at 1. unfold except_same_file.
      destruct verbose.
      * rewrite bind_emit.
        rewrite (bind_returned _ _ _ _ _ (run_command_run w _ _ _ Hw)).
        unfold ret, record_call, st1, autorotate_cmd. simpl.
        now rewrite <- !app_assoc.
      * rewrite bind_ret.
        rewrite (bind_returned _ _ _ _ _ (run_command_run w _ _ _ Hw)).
        unfold ret, record_call, st1, autorotate_cmd. simpl.
        now rewrite <- !app_assoc.
Qed.

Lemma copy_loop_events_cons n image_dir prefix verbose same idx p turns :
  copy_loop_events n image_dir prefix verbose same idx (p :: turns)
  = copy_one_events n image_dir prefix verbose same idx p
    ++ copy_loop_events n image_dir prefix verbose same (S idx) turns.
Proof.
  unfold copy_loop_events. rewrite imap_cons. simpl. rewrite Nat.add_0_r. f_equal.
  f_equal. apply imap_ext. intros i x _. simpl. now rewrite Nat.add_succ_r.
Qed.

Lemma copy_loop_trace loc image_dir prefix verbose same turns :
  dependable w ->
  forall done idx acc st,
    store st !! loc = Some (done ++ turns) -> length done = idx ->
    copy_loop w loc image_dir prefix verbose same turns idx acc st
    = (Returned (acc ++ destinations image_dir prefix idx turns),
       mkState (trace st
                ++ copy_loop_events (length (done ++ turns)) image_dir prefix verbose
                     same idx turns)
         (<[loc := done ++ raw_substituted image_dir prefix idx turns]> (store st))).
Proof.
  intros Hw. induction turns as [|p turns IH]; intros done idx acc st Hstore Hlen.
  - simpl. unfold ret. unfold copy_loop_events. simpl. rewrite !app_nil_r.
    rewrite app_nil_r in Hstore. rewrite list_insert_id by assumption.
    now destruct st.
  - simpl copy_loop.
    rewrite (bind_returned _ _ _ _ _
               (copy_one_trace loc image_dir prefix verbose same idx st done p turns
                  Hw Hstore Hlen)).
    set (p' := if is_raw p then destination image_dir prefix idx p else p).
    set (st1 := mkState _ _).
    assert (store st1 !! loc = Some ((done ++ [p']) ++ turns)) as Hstore1.
    { unfold st1, p'. simpl. rewrite <- app_assoc. simpl. destruct (is_raw p).
      - apply list_lookup_insert_eq. eapply lookup_lt_Some. exact Hstore.
      - exact Hstore. }
    assert (length (done ++ [p']) = S idx) as Hlen1
      by (rewrite length_app; simpl; lia).
    rewrite (IH (done ++ [p']) (S idx) (acc ++ [destination image_dir prefix idx p])
               st1 Hstore1 Hlen1).
    rewrite raw_substituted_cons, destinations_cons, copy_loop_events_cons. fold p'.
    assert (length ((done ++ [p']) ++ turns) = length (done ++ p :: turns)) as ->
      by (rewrite !length_app; simpl; lia).
    rewrite <- !app_assoc. simpl. f_equal.
    unfold st1. simpl. f_equal.
    + now rewrite <- app_assoc.
    + destruct (is_raw p); [apply list_insert_insert_eq | reflexivity].
Qed.

Lemma for_each_commands {A} (xs : list A) (cmd : A -> string) (verbose : bool) st :
  dependable w ->
  for_each xs
    (fun x =>
       bind (if verbose then emit (ConsoleLog ("... " +:+ cmd x)) else ret tt)
         (fun _ => bind (run_command w (cmd x) verbose) (fun _ => ret tt))) st
  = (Returned tt,
     mkState (trace st
              ++ flat_map (fun x => (if verbose then [ConsoleLog ("... " +:+ cmd x)] else [])
                                    ++ [RunCommand (cmd x)]) xs)
       (store st)).
Proof.
  intros Hw. revert st. induction xs as [|x xs IH]; intros st.
  - simpl. unfold ret. now rewrite <- state_eta.
  - simpl for_each. simpl flat_map. destruct verbose.
    + rewrite bind_assoc, bind_emit, bind_assoc.
      rewrite (bind_returned _ _ _ _ _ (run_command_run w _ _ _ Hw)).
      rewrite bind_ret, IH. unfold record_call. simpl. now rewrite <- !app_assoc.
    + rewrite bind_assoc, bind_ret, bind_assoc.
      rewrite (bind_returned _ _ _ _ _ (run_command_run w _ _ _ Hw)).
      rewrite bind_ret, IH. unfold record_call. simpl. now rewrite <- !app_assoc.
Qed.

(** The run of [copy_images_list] on a list that is not empty, call by
    call. *)
Lemma copy_images_list_trace
    loc image_dir D prefix border cf verbose keep upscale nn same st p0 rest :
  dependable w -> store st !! loc = Some (p0 :: rest) ->
  copy_images_list w loc image_dir D prefix border cf verbose keep upscale nn same st
  = (Returned (destinations image_dir prefix 0 (p0 :: rest)),
     mkState
       (trace st
        ++ (if removes_image_dirs w st loc image_dir keep then removals image_dir D else [])
        ++ copy_images_list_events w image_dir D prefix border cf verbose upscale nn same
             p0 (p0 :: rest))
       (<[loc := raw_substituted image_dir prefix 0 (p0 :: rest)]> (store st))).
Proof.
  intros Hw Hstore. unfold copy_images_list.
  rewrite bind_ask. unfold bind at 1. unfold list_contents at 1.
  rewrite (bind_returned _ _ _ _ _ (cleanup_run w loc image_dir D keep st)).
  set (pre := if removes_image_dirs w st loc image_dir keep then _ else _).
  set (st0 := mkState (trace st ++ pre) (store st)).
  rewrite bind_call by (assumption || discriminate).
  set (st1 := record_call (Mkdir image_dir) st0).
  assert (store st1 !! loc = Some (p0 :: rest)) as Hstore1 by exact Hstore.
  rewrite (bind_returned _ _ _ _ _ (list_contents_run loc st1 _ Hstore1)).
  pose proof (copy_loop_trace loc image_dir prefix verbose same (p0 :: rest) Hw [] 0%nat []
                st1 Hstore1 eq_refl) as Hloop.
  simpl app in Hloop. rewrite (bind_returned _ _ _ _ _ Hloop). clear Hloop.
  set (st2 := mkState _ (<[loc := _]> (store st1))).
  rewrite (bind_returned _ _ _ _ _ (for_each_mkdir w _ st2 Hw)).
  set (st3 := mkState _ (store st2)).
  assert (store st3 !! loc = Some (raw_substituted image_dir prefix 0 (p0 :: rest)))
    as Hstore3.
  { unfold st3, st2. simpl. apply list_lookup_insert_eq.
    eapply lookup_lt_Some. exact Hstore. }
  rewrite (bind_returned _ _ _ _ _ (list_contents_run loc st3 _ Hstore3)).
  rewrite raw_substituted_length. simpl length.
  rewrite destinations_cons. simpl lookup. cbv beta iota zeta.
  assert (forall st',
    for_each (py_range1 (if same then 1 else S (length rest)))
      (fun framenum =>
         bind
           (if verbose
            then emit (ConsoleLog
                         ("... " +:+ frames_cmd w image_dir D border cf upscale nn
                                       (if same then prefix +:+ "%05d"
                                        else prefix +:+ fmt_05d framenum)
                                       (destination image_dir prefix 0 p0)))
            else ret tt)
           (fun _ =>
              bind (run_command w
                      (frames_cmd w image_dir D border cf upscale nn
                         (if same then prefix +:+ "%05d" else prefix +:+ fmt_05d framenum)
                         (destination image_dir prefix 0 p0)) verbose)
                (fun _ => ret tt))) st'
    = (Returned tt,
       mkState (trace st'
                ++ frames_events w image_dir D prefix border cf verbose upscale nn same
                     (S (length rest)) (destination image_dir prefix 0 p0))
         (store st'))) as Hframes.
  { intros st'. rewrite for_each_commands by assumption. f_equal. f_equal. f_equal.
    unfold frames_events, framenames. destruct same.
    - reflexivity.
    - rewrite flat_map_concat_map, (flat_map_concat_map _ (map _ _)), map_map.
      reflexivity. }
  unfold frames_cmd in Hframes. cbv zeta in Hframes.
  rewrite (bind_returned _ _ _ _ _ (Hframes st3)).
  change ((S (length rest) =? 0)%nat) with false. cbv iota.
  rewrite bind_emit.
  unfold ret, st3, st2, st1, st0, record_call, done_message, copy_images_list_events.
  simpl. f_equal. f_equal. rewrite <- !app_assoc. reflexivity.
Qed.

End CopyTrace.


Section CopyTheorems.
Context {PL : PathLib} (w : World).


Lemma filter_app_bool {A} (f : A -> bool) (l1 l2 : list A) :
  List.filter f (l1 ++ l2) = List.filter f l1 ++ List.filter f l2.
Proof. apply List.filter_app. Qed.


Lemma commands_of_mkdirs (dirs : list Path) :
  List.filter is_run_command (map Mkdir dirs) = [].
Proof. induction dirs as [|d dirs IH]; [reflexivity | exact IH]. Qed.

Lemma commands_of_copy_one n image_dir prefix verbose same idx p :
  List.filter is_run_command (copy_one_events n image_dir prefix verbose same idx p)
  = if is_raw p || same then []
    else [RunCommand (autorotate_cmd p (destination image_dir prefix idx p))].
Proof.
  unfold copy_one_events. cbv zeta.
  destruct verbose, (is_raw p), same; reflexivity.
Qed.

Lemma commands_of_copy_loop n image_dir prefix verbose same paths :
  forall idx,
    List.filter is_run_command (copy_loop_events n image_dir prefix verbose same idx paths)
    = if same then []
      else map (fun '(i, p) => RunCommand (autorotate_cmd p (destination image_dir prefix i p)))
             (List.filter (fun '(i, p) => negb (is_raw p))
                (zip (seq idx (length paths)) paths)).
Proof.
  induction paths as [|p paths IH]; intros idx.
  - now destruct same.
  - rewrite copy_loop_events_cons, filter_app_bool, commands_of_copy_one, IH.
    simpl. destruct same; [now rewrite orb_true_r|].
    rewrite orb_false_r. now destruct (is_raw p).
Qed.

Lemma commands_of_frames image_dir D prefix border cf verbose upscale nn same n first :
  List.filter is_run_command
    (frames_events w image_dir D prefix border cf verbose upscale nn same n first)
  = map (fun framename => RunCommand (frames_cmd w image_dir D border cf upscale nn
                                        framename first))
      (framenames prefix same n).
Proof.
  unfold frames_events. induction (framenames prefix same n) as [|name names IH];
    [reflexivity|].
  simpl flat_map. rewrite filter_app_bool, IH. now destruct verbose.
Qed.


End CopyTheorems.


(** ** Depth maps *)

Section DepthMaps.
Context {PL : PathLib} (w : World).

Lemma polycam_after_mkdir loc depth_dir D border verbose st :
  dependable w ->
  copy_and_upscale_polycam_depth_maps_list w loc depth_dir D border verbose st
  = bind (copy_images_list w loc depth_dir D "frame_" border (0, 0, 0, 0)%Q verbose false
            (Some 4) true true)
      (fun copied =>
         bind (emit (ConsoleLog "[bold green]:tada: Done upscaling depth maps."))
           (fun _ => ret copied))
      (record_call (Mkdir depth_dir) st).
Proof.
  intros Hw. unfold copy_and_upscale_polycam_depth_maps_list.
  rewrite bind_call by (assumption || discriminate). reflexivity.
Qed.

(** X12. Depth maps are copied with the defaults of copy_images_list, so
    keep_image_dir is off and same_dimensions is on. For a list that is not
    empty, when the external calls succeed: depth_dir is created first; if
    it is then a directory other than the directory of the first input, it
    is removed again with its downscaled versions (what it held is lost)
    and created anew; the files are named frame_00001 onwards; the one
    command run upscales by 4 with nearest-neighbour sampling, which is also
    used for the downscaling; the closing messages are logged and the
    destinations returned. *)
Theorem polycam_depth_maps_run loc depth_dir D border verbose st p0 rest :
  dependable w -> store st !! loc = Some (p0 :: rest) ->
  let created := record_call (Mkdir depth_dir) st in
  let removed :=
    os_is_dir w (trace created) depth_dir
    && bool_decide (depth_dir <> path_parent p0) in
  let events :=
    copy_images_list_events w depth_dir D "frame_" border (0, 0, 0, 0)%Q verbose
      (Some 4) true true p0 (p0 :: rest) in
  copy_and_upscale_polycam_depth_maps_list w loc depth_dir D border verbose st
  = (Returned (destinations depth_dir "frame_" 0 (p0 :: rest)),
     mkState
       (trace st ++ [Mkdir depth_dir]
        ++ (if removed then removals depth_dir D else [])
        ++ events
        ++ [ConsoleLog "[bold green]:tada: Done upscaling depth maps."])
       (<[loc := raw_substituted depth_dir "frame_" 0 (p0 :: rest)]> (store st)))
  /\ List.filter is_run_command events
     = [RunCommand (frames_cmd w depth_dir D border (0, 0, 0, 0)%Q (Some 4) true
                      "frame_%05d" (destination depth_dir "frame_" 0 p0))].
Proof.
  intros Hw Hstore created removed events. split.
  - rewrite polycam_after_mkdir by assumption. fold created.
    assert (store created !! loc = Some (p0 :: rest)) as Hstore1 by exact Hstore.
    rewrite (bind_returned _ _ _ _ _
               (copy_images_list_trace w loc depth_dir D "frame_" border (0, 0, 0, 0)%Q
                  verbose false (Some 4) true true created p0 rest Hw Hstore1)).
    rewrite bind_emit. unfold ret, record_call. simpl store.
    assert (removes_image_dirs w created loc depth_dir false = removed) as ->.
    { unfold removes_image_dirs. rewrite Hstore1. simpl. now rewrite andb_true_r. }
    fold events. f_equal. f_equal. simpl trace. now rewrite <- !app_assoc.
  - unfold events, copy_images_list_events.
    rewrite !filter_app_bool, commands_of_mkdirs, commands_of_copy_loop, commands_of_frames.
    reflexivity.
Qed.

(** X13. Depth maps from an empty list: when the external calls succeed the
    call creates depth_dir (twice) and the downscaled directories and then
    raises IndexError, as copy_images_list does with same_dimensions left
    on; nothing is removed, no closing message is logged and no list is
    returned. *)
Theorem polycam_depth_maps_empty_raises loc depth_dir D border verbose st :
  dependable w -> store st !! loc = Some [] ->
  copy_and_upscale_polycam_depth_maps_list w loc depth_dir D border verbose st
  = (Raised IndexError,
     mkState (trace st ++ Mkdir depth_dir :: Mkdir depth_dir
                          :: map Mkdir (downscale_dirs depth_dir D))
       (store st)).
Proof.
  intros Hw Hstore. rewrite polycam_after_mkdir by assumption.
  apply bind_raised.
  rewrite copy_images_list_empty_run by exact Hstore.
  rewrite for_each_mkdir by assumption. unfold record_call. simpl.
  now rewrite <- app_assoc.
Qed.

End DepthMaps.

(** ** Copying a directory without images *)

Section EmptyScan.
Context {PL : PathLib} (w : World).

(** X14. copy_images on a directory in which no supported image is found:
    the process ends with status 1 after the one message, in any
    environment; no directory is removed or created, nothing is copied and
    no command is run. *)
Theorem copy_images_without_images_exits
    data image_dir prefix verbose keep cf D same st :
  fst (list_images w data st) = Returned [] ->
  copy_images w data image_dir prefix verbose keep cf D same st
  = (Exited 1,
     mkState (trace st ++ [ConsoleLog "[bold red]:skull: No usable images in the data folder."])
       (store st ++ [[]])).
Proof.
  intros Hfound. unfold copy_images.
  assert (list_images w data st = (Returned [], st)) as Hlist.
  { rewrite list_images_run in Hfound |- *. cbn [fst] in Hfound. now rewrite Hfound. }
  rewrite (bind_returned _ _ _ _ _ Hlist).
  unfold bind at 1. unfold list_new at 1.
  set (st1 := mkState (trace st) (store st ++ [[]])).
  assert (store st1 !! length (store st) = Some []) as Hstore1.
  { unfold st1. simpl. apply list_lookup_middle. reflexivity. }
  rewrite (bind_returned _ _ _ _ _ (list_contents_run _ st1 _ Hstore1)).
  reflexivity.
Qed.

End EmptyScan.

(** ** Separate downscaling *)

Section Downscaling.
Context {PL : PathLib} (w : World) (path_name : Path -> string).

Lemma for_each_run_commands (xs : list Path) (cmd : Path -> string) verbose st :
  dependable w ->
  for_each xs (fun f => bind (run_command w (cmd f) verbose) (fun _ => ret tt)) st
  = (Returned tt,
     mkState (trace st ++ map (fun f => RunCommand (cmd f)) xs) (store st)).
Proof.
  intros Hw. revert st. induction xs as [|x xs IH]; intros st.
  - simpl. unfold ret. now rewrite <- state_eta.
  - simpl for_each. rewrite bind_assoc.
    rewrite (bind_returned _ _ _ _ _ (run_command_run w _ _ _ Hw)).
    rewrite bind_ret, IH. unfold record_call. simpl. now rewrite <- !app_assoc.
Qed.

Lemma downscale_factors_loop image_dir folder nn verbose found factors st :
  dependable w ->
  (forall tr, os_glob w tr image_dir "**/[!.]*" = found) ->
  Forall (fun f => 1 < f)%nat factors ->
  for_each factors
    (fun downscale_factor =>
       bind (if (1 <? downscale_factor)%nat then ret tt else raise AssertionError)
         (fun _ =>
            bind (call w (Mkdir (downscale_images_dir image_dir folder downscale_factor)))
              (fun _ =>
                 bind (list_images w image_dir)
                   (fun images =>
                      for_each images
                        (fun f =>
                           bind (run_command w
                                   (downscale_images_cmd path_name image_dir folder nn
                                      downscale_factor f) verbose)
                             (fun _ => ret tt)))))) st
  = (Returned tt,
     mkState (trace st
              ++ downscale_images_events path_name image_dir folder nn factors
                   (path_sorted (List.filter allowed_image found)))
       (store st)).
Proof.
  intros Hw Hglob Hfactors. revert st.
  induction Hfactors as [|f factors Hf _ IH]; intros st.
  - simpl. unfold ret. now rewrite <- state_eta.
  - simpl for_each. apply Nat.ltb_lt in Hf. rewrite Hf.
    rewrite bind_assoc, bind_ret, bind_assoc.
    rewrite bind_call by (assumption || discriminate).
    rewrite bind_assoc. rewrite (bind_returned _ _ _ _ _ (list_images_run w image_dir _)).
    rewrite Hglob. fold allowed_image.
    rewrite (bind_returned _ _ _ _ _ (for_each_run_commands _ _ verbose _ Hw)).
    rewrite IH. unfold record_call, downscale_images_events. simpl.
    now rewrite <- !app_assoc.
Qed.

Lemma downscale_text_S d :
  downscale_text (S d)
  = downscale_text d ++ ["[bold blue]" +:+ str_of_nat (2 ^ (d + 1)) +:+ "x[/bold blue]"].
Proof.
  unfold downscale_text, py_range. now rewrite seq_S, map_app.
Qed.

(** X15. The separate downscaling, when the external calls succeed and the
    listing of image_dir does not change. For no downscale nothing is
    called. For d + 1 downscales, for each factor 2, 4, ..., 2^(d+1) in
    turn the directory folder_name_factor is created beside image_dir and
    one command is run for each listed image, which reads the file of that
    name directly under image_dir; then the closing message is logged. The
    summary names all factors, the last after the word and; for a single
    downscale nothing precedes that word. *)
Theorem downscale_images_calls image_dir d folder nn verbose st found :
  dependable w ->
  (forall tr, os_glob w tr image_dir "**/[!.]*" = found) ->
  let images := path_sorted (List.filter allowed_image found) in
  let factors := map (fun i => (2 ^ i)%nat) (seq 1 (S d)) in
  downscale_images w path_name image_dir 0 folder nn verbose st
  = (Returned "No downscaling performed.", st)
  /\ downscale_images w path_name image_dir (S d) folder nn verbose st
     = (Returned
          ("We downsampled the images by "
           +:+ (str_join ", " (downscale_text d) +:+ " and "
                +:+ ("[bold blue]" +:+ str_of_nat (2 ^ (d + 1)) +:+ "x[/bold blue]"))),
        mkState
          (trace st
           ++ downscale_images_events path_name image_dir folder nn factors images
           ++ [ConsoleLog "[bold green]:tada: Done downscaling images."])
          (store st))
  /\ length (downscale_images_events path_name image_dir folder nn factors images)
     = (S d * (1 + length images))%nat
  /\ str_join ", " (downscale_text 0) = "".
Proof.
  intros Hw Hglob images factors. split; [reflexivity|]. split; [|split].
  - unfold downscale_images. change ((S d =? 0)%nat) with false. cbv iota zeta.
    assert (drop 1 (py_range (S d + 1)) = seq 1 (S d)) as ->.
    { unfold py_range. rewrite Nat.add_1_r. reflexivity. }
    fold factors.
    assert (Forall (fun f => 1 < f)%nat factors) as Hfactors.
    { unfold factors. apply Forall_forall. intros f Hf.
      apply list_elem_of_fmap in Hf as (i & -> & Hi).
      apply elem_of_seq in Hi.
      change 1%nat with (2 ^ 0)%nat at 1. apply Nat.pow_lt_mono_r; lia. }
    rewrite (bind_returned _ _ _ _ _
               (downscale_factors_loop image_dir folder nn verbose found factors st
                  Hw Hglob Hfactors)).
    rewrite bind_emit, downscale_text_S, rev_app_distr. simpl rev. cbv iota.
    rewrite removelast_last. unfold ret, record_call. cbn [trace store].
    now rewrite <- !app_assoc.
  - unfold downscale_images_events, factors.
    assert (forall k, length (flat_map
               (fun downscale_factor =>
                  Mkdir (downscale_images_dir image_dir folder downscale_factor)
                  :: map (fun f => RunCommand (downscale_images_cmd path_name image_dir
                                                 folder nn downscale_factor f)) images)
               (map (fun i => (2 ^ i)%nat) (seq k (S d))))
             = (S d * (1 + length images))%nat) as Hlen.
    { generalize (S d) as n. induction n as [|n IH]; intros k; [reflexivity|].
      simpl seq. simpl map. simpl flat_map. rewrite length_cons, length_app, length_map, IH.
      lia. }
    apply (Hlen 1%nat).
  - reflexivity.
Qed.

(** X16. Whatever the environment answers and however the run ends, the
    separate downscaling only creates directories, runs commands and logs:
    it removes nothing and copies nothing. *)
Theorem downscale_images_never_removes image_dir D folder nn verbose :
  only_adds creates_runs_or_logs
    (downscale_images w path_name image_dir D folder nn verbose).
Proof.
  unfold downscale_images. cbv zeta.
  destruct (D =? 0)%nat; [apply only_adds_ret|].
  apply only_adds_bind.
  - apply only_adds_for_each. intros f _.
    apply only_adds_bind; [destruct (1 <? f)%nat;
                           [apply only_adds_ret | apply only_adds_raise]|].
    intros _. apply only_adds_bind; [now apply only_adds_call|].
    intros _. apply only_adds_bind; [apply only_adds_list_images|].
    intros images. apply only_adds_for_each. intros p _.
    apply only_adds_bind; [now apply only_adds_run_command | intros; apply only_adds_ret].
  - intros _. apply only_adds_bind; [now apply only_adds_emit|].
    intros _. destruct (rev (downscale_text D));
      [apply only_adds_raise | apply only_adds_ret].
Qed.

End Downscaling.


(** ** The selection of frames *)

(** The run of [convert_video_to_images] up to the count of the frames, for
    crop fractions in range and a video that is an existing file. *)
Ltac video_until_probe Hw Hin Hfile :=
  unfold convert_video_to_images;
  rewrite convert_video_prologue by exact Hw;
  change (fun i : Q =>
            if Qlt_bool i 0 || Qlt_bool 1 i
            then bind (emit (ConsolePrint
                               ["[bold red]Error: Invalid crop factor. All crops must be in [0,1]."]))
                   (fun _ => sys_exit 1)
            else ret tt) with crop_check;
  rewrite (bind_returned _ _ _ _ _ (crop_check_passes _ _ Hin));
  rewrite bind_ask, (proj1 Hfile), bind_ret;
  rewrite bind_ask, (proj2 Hfile);
  change (negb true) with false; cbv iota; rewrite bind_ret.

(** The run up to the selection of frames, for a video with frames. *)
Ltac video_until_selection Hw Hin Hfile Hprobe HN :=
  video_until_probe Hw Hin Hfile;
  rewrite (bind_returned _ _ _ _ _ (get_num_frames_in_video_run _ _ _ _ Hw Hprobe));
  rewrite (proj2 (Nat.eqb_neq _ _) HN), bind_ret, bind_emit;
  rewrite (bind_returned _ _ _ _ _ (for_each_mkdir _ _ _ Hw)).

Section SelectionFacts.
Context {PL : PathLib} (w : World).

Lemma before_selection_state video_path image_dir D (keep : bool) N st :
  mkState
    ((trace (record_call (ConsolePrint ["Number of frames in video:"; str_of_nat N])
               (record_call (RunCommand (ffprobe_cmd video_path))
                  (mkState (trace st ++ (if keep then [] else removals image_dir D)
                                     ++ [Mkdir image_dir]) (store st)))))
     ++ map Mkdir (downscale_dirs image_dir D))
    (store st)
  = mkState (trace st ++ before_selection video_path image_dir D keep N) (store st).
Proof.
  unfold record_call, before_selection. simpl. f_equal. now rewrite <- !app_assoc.
Qed.

(** The run of [convert_video_to_images] that reaches the extraction. *)
Lemma convert_video_run
    video_path image_dir target D cf verbose prefix keep seed st N :
  dependable w -> all_in_unit cf -> video_is_file w video_path ->
  probed_frames w video_path N -> N <> 0%nat -> target <> 0 ->
  (truthy seed = true -> 0 <= target <= Z.of_nat N) ->
  let '(message, bgr8, select_cmd) := selection w N target seed in
  let extracting :=
    trace st ++ before_selection video_path image_dir D keep N
    ++ [ConsolePrint [message];
        RunCommand (extraction_cmd w video_path image_dir D cf prefix bgr8 select_cmd)] in
  let num_final_frames := length (os_glob w extracting image_dir "*.png") in
  convert_video_to_images w video_path image_dir target D cf verbose prefix keep seed st
  = (Returned
       (["Starting with " +:+ str_of_nat N +:+ " video frames";
         "We extracted " +:+ str_of_nat num_final_frames +:+ " images with prefix '"
         +:+ prefix +:+ "'"],
        num_final_frames),
     mkState
       (extracting ++ [ConsoleLog "[bold green]:tada: Done converting video to images."])
       (store st)).
Proof.
  intros Hw Hin Hfile Hprobe HN Ht Hseed.
  video_until_selection Hw Hin Hfile Hprobe HN.
  simpl store. rewrite before_selection_state.
  rewrite (proj2 (Z.eqb_neq _ _) Ht), bind_ret.
  unfold selection, extraction_cmd. cbv zeta.
  destruct (truthy seed) eqn:Hs.
  - specialize (Hseed eq_refl).
    assert (((target <? 0) || (Z.of_nat N <? target)) = false) as ->.
    { apply orb_false_iff. split; apply Z.ltb_ge; lia. }
    rewrite bind_assoc, bind_emit, bind_ret.
    rewrite (bind_returned _ _ _ _ _ (run_command_run w _ _ _ Hw)).
    rewrite bind_ask, bind_emit. unfold ret, record_call. simpl.
    rewrite <- !app_assoc. reflexivity.
  - destruct (1 <? Z.of_nat N / target) eqn:Hsp.
    + rewrite bind_assoc, bind_emit, bind_ret.
      rewrite (bind_returned _ _ _ _ _ (run_command_run w _ _ _ Hw)).
      rewrite bind_ask, bind_emit. unfold ret, record_call. simpl.
      rewrite <- !app_assoc. reflexivity.
    + rewrite bind_assoc, bind_emit, bind_ret.
      rewrite (bind_returned _ _ _ _ _ (run_command_run w _ _ _ Hw)).
      rewrite bind_ask, bind_emit. unfold ret, record_call. simpl.
      rewrite <- !app_assoc. reflexivity.
Qed.

End SelectionFacts.

Section SelectionTheorems.
Context {PL : PathLib} (w : World).

(** X17. A target of 0 frames is a division by zero: for a video that is
    an existing file with frames, when the external calls succeed, the run
    removes and creates the directories, counts the frames and then raises
    ZeroDivisionError where the spacing is computed; this happens with or
    without a seed, and no extraction command is run. *)
Theorem zero_target_divides_by_zero
    video_path image_dir D cf verbose prefix keep seed st N :
  dependable w -> all_in_unit cf -> video_is_file w video_path ->
  probed_frames w video_path N -> N <> 0%nat ->
  convert_video_to_images w video_path image_dir 0 D cf verbose prefix keep seed st
  = (Raised ZeroDivisionError,
     mkState (trace st ++ before_selection video_path image_dir D keep N) (store st)).
Proof.
  intros Hw Hin Hfile Hprobe HN.
  video_until_selection Hw Hin Hfile Hprobe HN.
  simpl store. rewrite before_selection_state. reflexivity.
Qed.

(** X18. With a seed other than 0, a target that is negative or larger than
    the number of frames raises ValueError (the sample is larger than the
    population or negative) before any extraction command is run; without
    a seed the same target is accepted and the run returns. *)
Theorem seeded_sample_out_of_range
    video_path image_dir target D cf verbose prefix keep seed st N :
  dependable w -> all_in_unit cf -> video_is_file w video_path ->
  probed_frames w video_path N -> N <> 0%nat ->
  seed <> 0 -> target <> 0 -> target < 0 \/ Z.of_nat N < target ->
  convert_video_to_images w video_path image_dir target D cf verbose prefix keep
    (Some seed) st
  = (Raised ValueError,
     mkState (trace st ++ before_selection video_path image_dir D keep N) (store st))
  /\ exists result,
       fst (convert_video_to_images w video_path image_dir target D cf verbose prefix keep
              None st) = Returned result.
Proof.
  intros Hw Hin Hfile Hprobe HN Hseed Ht Hrange. split.
  - video_until_selection Hw Hin Hfile Hprobe HN.
    simpl store. rewrite before_selection_state.
    rewrite (proj2 (Z.eqb_neq _ _) Ht), bind_ret.
    assert (truthy (Some seed) = true) as ->
      by (simpl; apply negb_true_iff, Z.eqb_neq; assumption).
    assert (((target <? 0) || (Z.of_nat N <? target)) = true) as ->.
    { apply orb_true_iff. destruct Hrange; [left | right]; now apply Z.ltb_lt. }
    reflexivity.
  - pose proof (convert_video_run w video_path image_dir target D cf verbose prefix keep
                  None st N Hw Hin Hfile Hprobe HN Ht) as Hrun.
    destruct (selection w N target None) as [[message bgr8] select_cmd].
    rewrite Hrun by discriminate. eexists. reflexivity.
Qed.

(** X19. A video the frames of which cannot be counted (the inspection
    command prints nothing, or no digit) does not lead to the message that
    the video has no frames: AssertionError is raised out of
    convert_video_to_images, after the removals, the creation of image_dir
    and the inspection command. *)
Theorem uncounted_frames_raise
    video_path image_dir target D cf verbose prefix keep seed st :
  dependable w -> all_in_unit cf -> video_is_file w video_path ->
  unreadable_count w video_path ->
  convert_video_to_images w video_path image_dir target D cf verbose prefix keep seed st
  = (Raised AssertionError,
     mkState (trace st ++ (if keep then [] else removals image_dir D)
              ++ [Mkdir image_dir; RunCommand (ffprobe_cmd video_path)])
       (store st)).
Proof.
  intros Hw Hin Hfile Hun.
  video_until_probe Hw Hin Hfile.
  apply bind_raised. rewrite get_num_frames_unreadable by assumption.
  unfold record_call. simpl. now rewrite <- !app_assoc.
Qed.




End SelectionTheorems.


(** ** The returned mapping *)

Section OrderedDict.
Context {K V : Type} `{EqDecision K}.

Lemma ordered_dict_set_old (d : list (K * V)) k v :
  In k (map fst d) -> map fst (ordered_dict_set d k v) = map fst d.
Proof.
  induction d as [|[k' v'] d IH]; simpl; intros Hk; [tauto|].
  destruct (decide (k' = k)) as [-> | Hne]; [reflexivity|].
  simpl. rewrite IH by tauto. reflexivity.
Qed.

Lemma ordered_dict_set_new (d : list (K * V)) k v :
  ~ In k (map fst d) -> ordered_dict_set d k v = d ++ [(k, v)].
Proof.
  induction d as [|[k' v'] d IH]; simpl; intros Hk; [reflexivity|].
  destruct (decide (k' = k)) as [-> | Hne]; [tauto|]. rewrite IH by tauto. reflexivity.
Qed.

Lemma key_in_dec (d : list (K * V)) k : {In k (map fst d)} + {~ In k (map fst d)}.
Proof. apply List.in_dec. intros x y. apply (decide (x = y)). Qed.

Lemma ordered_dict_set_NoDup (d : list (K * V)) k v :
  List.NoDup (map fst d) -> List.NoDup (map fst (ordered_dict_set d k v)).
Proof.
  intros Hd. destruct (key_in_dec d k) as [Hin | Hin].
  - now rewrite ordered_dict_set_old.
  - rewrite ordered_dict_set_new, map_app by assumption. simpl.
    apply List.NoDup_rev in Hd. apply (List.NoDup_cons k) in Hd.
    + apply List.NoDup_rev in Hd. simpl in Hd. now rewrite List.rev_involutive in Hd.
    + now rewrite <- List.in_rev.
Qed.

Lemma ordered_dict_set_In (d : list (K * V)) k v kv :
  In kv (ordered_dict_set d k v) -> In kv d \/ kv = (k, v).
Proof.
  induction d as [|[k' v'] d IH]; simpl.
  - intros [<- | []]. now right.
  - destruct (decide (k' = k)) as [-> | Hne]; simpl.
    + intros [<- | Hin]; [now right | now left; right].
    + intros [<- | Hin]; [now left; left|].
      destruct (IH Hin) as [Hd | ->]; [now left; right | now right].
Qed.

Lemma ordered_dict_fold (pairs d : list (K * V)) :
  let result := fold_left (fun d kv => ordered_dict_set d (fst kv) (snd kv)) pairs d in
  (List.NoDup (map fst d) -> List.NoDup (map fst result))
  /\ (forall kv, In kv result -> In kv d \/ In kv pairs)
  /\ (forall k, In k (map fst d) \/ In k (map fst pairs) -> In k (map fst result))
  /\ (List.NoDup (map fst d ++ map fst pairs) -> result = d ++ pairs).
Proof.
  revert d. induction pairs as [|[k v] pairs IH]; intros d; simpl.
  - repeat split; try tauto. intros _. now rewrite app_nil_r.
  - destruct (IH (ordered_dict_set d k v)) as (Hnd & Hin & Hkeys & Hid).
    simpl in Hnd, Hin, Hkeys, Hid. repeat split.
    + intros Hd. now apply Hnd, ordered_dict_set_NoDup.
    + intros kv Hkv. destruct (Hin kv Hkv) as [Hset | Hp]; [|now right; right].
      destruct (ordered_dict_set_In d k v kv Hset) as [Hd | ->];
        [now left | now right; left].
    + intros k0 Hk0. apply Hkeys.
      destruct (key_in_dec d k) as [Hb | Hb].
      * rewrite ordered_dict_set_old by assumption.
        destruct Hk0 as [Hd | [<- | Hp]]; [now left | now left | now right].
      * rewrite ordered_dict_set_new, map_app by assumption.
        destruct Hk0 as [Hd | [<- | Hp]]; [|left|now right];
          rewrite in_app_iff; simpl; tauto.
    + intros Hnodup.
      assert (~ In k (map fst d)) as Hk.
      { intros Hk. apply List.NoDup_remove_2 in Hnodup. apply Hnodup.
        rewrite in_app_iff. now left. }
      rewrite ordered_dict_set_new in Hid |- * by assumption.
      rewrite Hid; [now rewrite <- app_assoc|].
      rewrite map_app. simpl. rewrite <- app_assoc. exact Hnodup.
Qed.

(** X22. The mapping built from a list of pairs: its keys are pairwise
    distinct; each of its items is one of the pairs; every key of the pairs
    is a key of the mapping; and when the keys of the pairs are pairwise
    distinct the mapping is the list of pairs itself, in its order. *)
Theorem ordered_dict_items (pairs : list (K * V)) :
  List.NoDup (map fst (ordered_dict pairs))
  /\ (forall kv, In kv (ordered_dict pairs) -> In kv pairs)
  /\ (forall k, In k (map fst pairs) -> In k (map fst (ordered_dict pairs)))
  /\ (List.NoDup (map fst pairs) -> ordered_dict pairs = pairs).
Proof.
  destruct (ordered_dict_fold pairs []) as (Hnd & Hin & Hkeys & Hid).
  simpl in Hnd, Hin, Hkeys, Hid. unfold ordered_dict. repeat split.
  - apply Hnd. constructor.
  - intros kv Hkv. destruct (Hin kv Hkv) as [[] | Hp]. exact Hp.
  - intros k Hk. apply Hkeys. now right.
  - exact Hid.
Qed.

End OrderedDict.

(** ** Listing the images *)

Section Listing.
Context {PL : PathLib} (w : World).

(** X23. On a platform where sorting rearranges a list, the images listed
    in a directory are the entries found by the recursive pattern the
    suffix of which, in lower case, is one of .jpg, .jpeg, .png, .tif,
    .tiff and .cr2: the case of the suffix does not matter, the listing is
    a rearrangement of the supported entries found, and it makes no call. *)
Theorem list_images_supported data st :
  (forall l, path_sorted l ≡ₚ l) ->
  exists images,
    list_images w data st = (Returned images, st)
    /\ images ≡ₚ List.filter allowed_image (os_glob w (trace st) data "**/[!.]*")
    /\ (forall p,
          In p images
          <-> In p (os_glob w (trace st) data "**/[!.]*")
              /\ In (str_lower (path_suffix p))
                   [".jpg"; ".jpeg"; ".png"; ".tif"; ".tiff"; ".cr2"])
    /\ (length images <= length (os_glob w (trace st) data "**/[!.]*"))%nat.
Proof.
  intros Hsorted. eexists. split; [apply list_images_run|].
  fold allowed_image.
  set (found := os_glob w (trace st) data "**/[!.]*").
  split; [apply Hsorted|]. split.
  - intros p. rewrite <- !list_elem_of_In, (Hsorted _), !list_elem_of_In.
    rewrite List.filter_In. unfold allowed_image. rewrite str_in_spec. reflexivity.
  - rewrite (Hsorted _). apply List.filter_length_le.
Qed.

End Listing.

(** ** A bounded list of image names *)

Lemma np_take_all {A} (xs : list A) :
  np_take xs (map Z.of_nat (py_range (length xs))) = Some xs.
Proof.
  unfold py_range.
  assert (forall done rest,
             xs = done ++ rest ->
             np_take xs (map Z.of_nat (seq (length done) (length rest))) = Some rest)
    as Hgen.
  { intros done rest. revert done. induction rest as [|x rest IH]; intros done Hxs.
    - reflexivity.
    - simpl. assert ((Z.of_nat (length done) <? 0) = false) as -> by (apply Z.ltb_ge; lia).
      rewrite Nat2Z.id.
      assert (xs !! length done = Some x) as ->
        by (rewrite Hxs; apply list_lookup_middle; reflexivity).
      specialize (IH (done ++ [x])). rewrite length_app in IH. simpl in IH.
      rewrite Nat.add_1_r in IH. rewrite IH by (rewrite <- app_assoc; exact Hxs).
      assert ((Z.of_nat (length done) <? - Z.of_nat (length xs)) = false) as ->
        by (apply Z.ltb_ge; lia).
      reflexivity. }
  apply (Hgen [] xs eq_refl).
Qed.

Section FilenamesFacts.
Context {PL : PathLib} (w : World) (np_round_linspace : Z -> Z -> exn + list Z).

(** X24. get_image_filenames without a limit (max_num_images = -1), or
    with a limit that the number of images does not exceed, returns all
    images of the directory, in the order of the listing, with their
    number; no call is made. *)
Theorem get_image_filenames_all directory max_num_images st images :
  list_images w directory st = (Returned images, st) ->
  max_num_images = -1 \/ Z.of_nat (length images) <= max_num_images ->
  get_image_filenames w np_round_linspace directory max_num_images st
  = (Returned (images, length images), st).
Proof.
  intros Hlist Hmax. unfold get_image_filenames.
  rewrite (bind_returned _ _ _ _ _ Hlist). cbv zeta.
  assert (negb (max_num_images =? -1) && (max_num_images <? Z.of_nat (length images))
          = false) as ->.
  { destruct Hmax as [-> | Hle]; [reflexivity|].
    apply andb_false_iff. right. apply Z.ltb_ge. exact Hle. }
  rewrite bind_ret, np_take_all. reflexivity.
Qed.

End FilenamesFacts.


(** ** The further properties on the sample environments *)

Lemma silent_probe_world_dependable : dependable silent_probe_world.
Proof. intros tr e. left. reflexivity. Qed.

Lemma existing_dirs_world_dependable : dependable existing_dirs_world.
Proof. intros tr e. left. reflexivity. Qed.

Lemma silent_probe_unreadable : unreadable_count silent_probe_world "clip.mp4".
Proof. intros tr. right. exists "N/A". split; [reflexivity | repeat constructor]. Qed.

Lemma silent_video_is_file : video_is_file silent_probe_world "clip.mp4".
Proof. split; intros tr; reflexivity. Qed.

Lemma posix_sorted_permutation (l : list (@Path posix_paths)) :
  @path_sorted posix_paths l ≡ₚ l.
Proof. apply merge_sort_Permutation. Qed.

Lemma resolver_idempotent_witness :
  find_tool_feature_matcher_combination "hloc" "superpoint_aachen" "NN-mutual"
  = (Some "hloc", Some "superpoint_aachen", Some "NN-mutual")
  /\ "hloc" <> "any".
Proof.
  destruct (resolver_idempotent "any" "superpoint" "NN" "hloc" "superpoint_aachen"
              "NN-mutual" eq_refl) as (Hfix & Htool & _).
  split; assumption.
Defined.

Lemma get_num_frames_reads_first_number_witness :
  get_num_frames_in_video labelled_probe_world (posix "clip.mp4") fresh_state
  = (Returned 96%nat, mkState [RunCommand (ffprobe_cmd (posix "clip.mp4"))] [[]]).
Proof.
  apply (get_num_frames_reads_first_number labelled_probe_world (posix "clip.mp4")
           fresh_state "packets=" 96 ",1").
  - reflexivity.
  - reflexivity.
  - repeat constructor.
  - reflexivity.
Defined.

Lemma get_num_frames_failures_witness :
  get_num_frames_in_video silent_probe_world (posix "clip.mp4") fresh_state
  = (Raised AssertionError, mkState [RunCommand (ffprobe_cmd (posix "clip.mp4"))] [[]]).
Proof.
  destruct (get_num_frames_failures silent_probe_world (posix "clip.mp4") fresh_state)
    as (_ & _ & Hout).
  apply (Hout "N/A"); [reflexivity | reflexivity | repeat constructor].
Defined.

Lemma excessive_crop_outside : some_outside_unit excessive_crop.
Proof. unfold some_outside_unit, excessive_crop. simpl. left. right. reflexivity. Qed.

Lemma generate_mask_outcomes_witness :
  generate_mask sample_world 4 6 excessive_crop (-1) fresh_state
  = (Exited 1, mkState [ConsoleLog crop_error] [[]])
  /\ generate_mask sample_world 4 6 sample_crop (-1) fresh_state
     = (Exited 1, mkState [ConsoleLog radius_error] [[]]).
Proof.
  split.
  - apply (generate_mask_outcomes sample_world 4 6 excessive_crop (-1) fresh_state).
    exact excessive_crop_outside.
  - apply (generate_mask_outcomes sample_world 4 6 sample_crop (-1) fresh_state).
    + exact sample_crop_all_in_unit.
    + discriminate.
Defined.




Lemma polycam_depth_maps_run_witness :
  trace (snd (copy_and_upscale_polycam_depth_maps_list existing_dirs_world 0 (posix "out/depth") 0
                None false one_depth_map))
  = [Mkdir (posix "out/depth");
     Rmtree "out/depth";
     Mkdir (posix "out/depth");
     ShutilCopy (posix "scan/depth/0.png") (posix "out/depth/frame_00001.png");
     Mkdir (posix "out/depth");
     RunCommand (frames_cmd existing_dirs_world (posix "out/depth") 0 None no_crop (Some 4)
                   true "frame_%05d" (posix "out/depth/frame_00001.png"));
     ConsoleLog "[bold green]:tada: Done copying images with prefix 'frame_'.";
     ConsoleLog "[bold green]:tada: Done upscaling depth maps."].
Proof.
  destruct (polycam_depth_maps_run existing_dirs_world 0 (posix "out/depth") 0 None false
              one_depth_map (posix "scan/depth/0.png") []
              existing_dirs_world_dependable eq_refl) as (Hrun & _).
  rewrite Hrun. reflexivity.
Defined.

Lemma polycam_depth_maps_empty_raises_witness :
  copy_and_upscale_polycam_depth_maps_list sample_world 0 (posix "out/depth") 1 None false
    fresh_state
  = (Raised IndexError,
     mkState [Mkdir (posix "out/depth"); Mkdir (posix "out/depth");
              Mkdir (posix "out/depth"); Mkdir (posix "out/depth_2")] [[]]).
Proof.
  apply (polycam_depth_maps_empty_raises sample_world 0 (posix "out/depth") 1 None false
           fresh_state sample_world_dependable eq_refl).
Defined.

Lemma copy_images_without_images_exits_witness :
  copy_images text_only_world (posix "in") (posix "out/images") "frame_" false false no_crop 0 true
    fresh_state
  = (Exited 1,
     mkState [ConsoleLog "[bold red]:skull: No usable images in the data folder."]
       [[]; []]).
Proof.
  apply (copy_images_without_images_exits text_only_world (posix "in") (posix "out/images")
           "frame_" false false no_crop 0 true fresh_state).
  reflexivity.
Defined.

Lemma downscale_images_calls_witness :
  fst (downscale_images sample_world posix_name_str (posix "out/images") 1 "images" false false
         fresh_state)
  = Returned "We downsampled the images by  and [bold blue]2x[/bold blue]"
  /\ trace (snd (downscale_images sample_world posix_name_str (posix "out/images") 1 "images" false
                   false fresh_state))
     = [Mkdir (posix "out/images_2");
        RunCommand (downscale_images_cmd posix_name_str (posix "out/images") "images" false
                      2 (posix "in/a.png"));
        RunCommand (downscale_images_cmd posix_name_str (posix "out/images") "images" false
                      2 (posix "in/b.CR2"));
        ConsoleLog "[bold green]:tada: Done downscaling images."].
Proof.
  destruct (downscale_images_calls sample_world posix_name_str (posix "out/images") 0
              "images" false false fresh_state
              [posix "in/b.CR2"; posix "in/a.png"; posix "in/notes.txt"]
              sample_world_dependable (fun _ => eq_refl)) as (_ & Hrun & _).
  rewrite Hrun. split; reflexivity.
Defined.

Lemma zero_target_divides_by_zero_witness :
  fst (convert_video_to_images sample_world (posix "clip.mp4") (posix "out/images") 0 0 no_crop false
         "frame_" true (Some 7) fresh_state)
  = Raised ZeroDivisionError.
Proof.
  rewrite (zero_target_divides_by_zero sample_world (posix "clip.mp4") (posix "out/images")
             0 no_crop false "frame_" true (Some 7) fresh_state 120
             sample_world_dependable no_crop_all_in_unit sample_video_is_file
             sample_video_frames); [reflexivity | discriminate].
Defined.

Lemma seeded_sample_out_of_range_witness :
  fst (convert_video_to_images sample_world (posix "clip.mp4") (posix "out/images") 500 0 no_crop false
         "frame_" true (Some 7) fresh_state)
  = Raised ValueError.
Proof.
  destruct (seeded_sample_out_of_range sample_world (posix "clip.mp4")
              (posix "out/images") 500 0 no_crop false "frame_" true 7 fresh_state 120
              sample_world_dependable no_crop_all_in_unit sample_video_is_file
              sample_video_frames) as (Hrun & _);
    [discriminate | discriminate | discriminate | right; reflexivity |].
  rewrite Hrun. reflexivity.
Defined.

Lemma uncounted_frames_raise_witness :
  convert_video_to_images silent_probe_world (posix "clip.mp4") (posix "out/images") 30 0 no_crop false
    "frame_" true None fresh_state
  = (Raised AssertionError,
     mkState [Mkdir (posix "out/images"); RunCommand (ffprobe_cmd (posix "clip.mp4"))]
       [[]]).
Proof.
  apply (uncounted_frames_raise silent_probe_world (posix "clip.mp4") (posix "out/images")
           30 0 no_crop false "frame_" true None fresh_state
           silent_probe_world_dependable no_crop_all_in_unit silent_video_is_file
           silent_probe_unreadable).
Defined.



Lemma list_images_supported_witness :
  exists images,
    list_images sample_world (posix "in") fresh_state = (Returned images, fresh_state)
    /\ (In (posix "in/b.CR2") images /\ ~ In (posix "in/notes.txt") images).
Proof.
  destruct (list_images_supported sample_world (posix "in") fresh_state
              posix_sorted_permutation) as (images & Hrun & _ & Hin & _).
  exists images. split; [exact Hrun|]. split.
  - apply Hin. split; [simpl; tauto | simpl; tauto].
  - intros Hnotes. apply Hin in Hnotes as [_ Hsuffix]. simpl in Hsuffix.
    repeat destruct Hsuffix as [Hsuffix | Hsuffix]; discriminate || assumption.
Defined.

Lemma get_image_filenames_all_witness :
  get_image_filenames sample_world no_linspace (posix "in") (-1) fresh_state
  = (Returned ([posix "in/a.png"; posix "in/b.CR2"], 2%nat), fresh_state).
Proof.
  apply (get_image_filenames_all sample_world no_linspace (posix "in") (-1) fresh_state
           [posix "in/a.png"; posix "in/b.CR2"]).
  - reflexivity.
  - left. reflexivity.
Defined.
